(** * Scraper control panel: ingestion controller, region derivation, export

    Shallow embedding of the web control panel of the repository
    (the [App] component with its handlers [processNextPage],
    [startScraping], [pauseScraping], [resetScraper], [exportToCSV], and
    the page source of [src/api/scraper.ts] with [extractState],
    [scrapeWebpage] and [fetchCharityPage]), and the properties of the
    specification that concern them. *)

From Stdlib Require Import Ascii String NArith Lia Sorted.
From stdpp Require Import gmap list.

Local Open Scope N_scope.

(** ** JavaScript strings

    A JavaScript string is a sequence of UTF-16 code units; [includes],
    [replace], [join] and the regular expressions of the sources (none has
    the [u] flag) all work on code units.  A code unit is an [N]. *)

Module JS.

(** The code units of a literal of the sources (all of them are ASCII). *)
Definition str (s : string) : list N :=
  map N_of_ascii (list_ascii_of_string s).

(** [s.startsWith(sub)], the position-0 test that [includes] repeats. *)
Fixpoint startsWith (s sub : list N) {struct sub} : bool :=
  match sub with
  | [] => true
  | c :: sub' =>
      match s with
      | [] => false
      | d :: s' => (c =? d) && startsWith s' sub'
      end
  end.

(** [s.includes(sub)]: [sub] occurs in [s] at some position. *)
Fixpoint includes (s sub : list N) : bool :=
  startsWith s sub ||
  match s with
  | [] => false
  | _ :: t => includes t sub
  end.

(** Character classes of regular expressions without the [u] flag. *)
Definition isUpper (c : N) : bool := (65 <=? c) && (c <=? 90).
Definition isDigit (c : N) : bool := (48 <=? c) && (c <=? 57).

(** [\s]: WhiteSpace and LineTerminator of ECMAScript, that is TAB, LF, VT,
    FF, CR, SP, NBSP, U+1680, U+2000..U+200A, U+2028, U+2029, U+202F,
    U+205F, U+3000 and U+FEFF. *)
Definition isSpace (c : N) : bool :=
  ((9 <=? c) && (c <=? 13)) || (c =? 32) || (c =? 160) || (c =? 5760)
  || ((8192 <=? c) && (c <=? 8202)) || (c =? 8232) || (c =? 8233)
  || (c =? 8239) || (c =? 8287) || (c =? 12288) || (c =? 65279).

(** Declarative counterparts, used to state what the functions compute. *)
Definition occursIn (sub s : list N) : Prop :=
  exists pre post, s = pre ++ sub ++ post.

(** ** Objects used as maps

    An object written [{}] or [{ ...prev }] has [Object.prototype] as its
    prototype, so [obj[key]] finds a value under each of the names below even
    when the object has no property of its own under [key]: a function under
    all of them but [__proto__], whose getter gives the prototype itself. *)
Definition objectPrototypeNames : list (list N) :=
  map str [ "constructor"; "__defineGetter__"; "__defineSetter__";
            "hasOwnProperty"; "__lookupGetter__"; "__lookupSetter__";
            "isPrototypeOf"; "propertyIsEnumerable"; "toString"; "valueOf";
            "__proto__"; "toLocaleString" ]%string.

Definition inheritedName (key : list N) : bool :=
  existsb (fun nm => bool_decide (nm = key)) objectPrototypeNames.

End JS.

Import JS.

(** ** The page source, [src/api/scraper.ts] *)

Module Scraper.

(** [interface Charity]; [email : string | null]. *)
Record Charity := mkCharity {
  name : list N;
  address : list N;
  website : list N;
  email : option (list N);
  state : list N
}.

Definition Unknown : list N := str "Unknown".

(** The greedy [\s+] of the pattern: skip the whole run of white space. *)
Fixpoint dropSpaces (s : list N) : list N :=
  match s with
  | c :: t => if isSpace c then dropSpaces t else s
  | [] => []
  end.

(** One attempt of [/([A-Z]{2})\s+\d{5}(-\d{4})?/] at the start of [s]; the
    result is capture group 1.  White space and digits are disjoint, so
    backtracking into [\s+] never helps, and the optional group never makes a
    match fail. *)
Definition matchAt (s : list N) : option (list N) :=
  match s with
  | a :: b :: w :: rest =>
      if isUpper a && isUpper b && isSpace w then
        match dropSpaces rest with
        | d1 :: d2 :: d3 :: d4 :: d5 :: _ =>
            if isDigit d1 && isDigit d2 && isDigit d3 && isDigit d4 && isDigit d5
            then Some [a; b] else None
        | _ => None
        end
      else None
  | _ => None
  end.

(** [address.match(/([A-Z]{2})\s+\d{5}(-\d{4})?/)]: the leftmost position at
    which the pattern matches. *)
Fixpoint stateZipMatch (s : list N) : option (list N) :=
  match matchAt s with
  | Some code => Some code
  | None =>
      match s with
      | [] => None
      | _ :: t => stateZipMatch t
      end
  end.

(** The object literal [states] of [extractState], as [Object.entries] lists
    it: string keys in insertion order. *)
Definition states : list (list N * list N) :=
  map (fun p => (str (fst p), str (snd p)))
  [ ("Alabama", "AL"); ("Alaska", "AK"); ("Arizona", "AZ"); ("Arkansas", "AR");
    ("California", "CA"); ("Colorado", "CO"); ("Connecticut", "CT"); ("Delaware", "DE");
    ("Florida", "FL"); ("Georgia", "GA"); ("Hawaii", "HI"); ("Idaho", "ID");
    ("Illinois", "IL"); ("Indiana", "IN"); ("Iowa", "IA"); ("Kansas", "KS");
    ("Kentucky", "KY"); ("Louisiana", "LA"); ("Maine", "ME"); ("Maryland", "MD");
    ("Massachusetts", "MA"); ("Michigan", "MI"); ("Minnesota", "MN"); ("Mississippi", "MS");
    ("Missouri", "MO"); ("Montana", "MT"); ("Nebraska", "NE"); ("Nevada", "NV");
    ("New Hampshire", "NH"); ("New Jersey", "NJ"); ("New Mexico", "NM"); ("New York", "NY");
    ("North Carolina", "NC"); ("North Dakota", "ND"); ("Ohio", "OH"); ("Oklahoma", "OK");
    ("Oregon", "OR"); ("Pennsylvania", "PA"); ("Rhode Island", "RI"); ("South Carolina", "SC");
    ("South Dakota", "SD"); ("Tennessee", "TN"); ("Texas", "TX"); ("Utah", "UT");
    ("Vermont", "VT"); ("Virginia", "VA"); ("Washington", "WA"); ("West Virginia", "WV");
    ("Wisconsin", "WI"); ("Wyoming", "WY"); ("District of Columbia", "DC") ]%string.

(** The [for ... of Object.entries(states)] loop: the code of the first
    entry whose name the address includes. *)
Fixpoint lookupName (address : list N) (table : list (list N * list N))
  : option (list N) :=
  match table with
  | [] => None
  | (stateName, stateCode) :: rest =>
      if includes address stateName then Some stateCode
      else lookupName address rest
  end.

Definition extractState (address : list N) : list N :=
  match address with
  | [] => Unknown
  | _ =>
      match stateZipMatch address with
      | Some code => code
      | None =>
          match lookupName address states with
          | Some stateCode => stateCode
          | None => Unknown
          end
      end
  end.

(** What the pattern denotes: two capitals, a non-empty run of white space,
    five digits, at the start of [s]. *)
Definition zipPattern (code s : list N) : Prop :=
  exists a b ws ds rest,
    code = [a; b] /\ s = a :: b :: ws ++ ds ++ rest /\
    isUpper a = true /\ isUpper b = true /\
    ws <> [] /\ Forall (fun c => isSpace c = true) ws /\
    length ds = 5%nat /\ Forall (fun c => isDigit c = true) ds.

(** The pattern matches somewhere in [s] / leftmost at the split [pre ++ suf]. *)
Definition zipOccurs (s : list N) : Prop :=
  exists pre suf code, s = pre ++ suf /\ zipPattern code suf.

Definition leftmostZip (code s : list N) : Prop :=
  exists pre suf,
    s = pre ++ suf /\ zipPattern code suf /\
    forall pre' suf' code',
      s = pre' ++ suf' -> (length pre' < length pre)%nat -> ~ zipPattern code' suf'.

(** [interface ScraperConfig] and the module variable [scraperConfig]. *)
Record Selectors := mkSelectors {
  items : list N;
  sel_name : list N;
  sel_address : option (list N);
  sel_website : option (list N)
}.

Record ScraperConfig := mkScraperConfig {
  cfg_sourceUrl : list N;
  selectors : Selectors
}.

Definition defaultScraperConfig : ScraperConfig :=
  {| cfg_sourceUrl := str "https://www.charitynavigator.org/search?page=";
     selectors :=
       {| items := str ".search-result";
          sel_name := str "a.link-primary";
          sel_address := Some (str ".cn-address");
          sel_website :=
            Some (str "a[href^=" ++ [34] ++ str "http" ++ [34]
                  ++ str "]:not([href*=" ++ [34] ++ str "charitynavigator.org"
                  ++ [34] ++ str "])") |} |}.

(** What the promise of [fetchCharityPage] settles to, as [processNextPage]
    sees it: the resolved object, or a rejection whose reason is an [Error]
    with a message ([Some]) or any other value ([None]). *)
Inductive FetchOutcome :=
| Resolved (charities : list Charity) (hasMore : bool)
| Rejected (message : option (list N)).

(** The [try]/[catch] of [fetchCharityPage]: the body settles to a page, or
    throws; the [catch] clause answers a throw with the empty page and
    [hasMore: false]. *)
Inductive BodyResult :=
| Page (charities : list Charity) (hasMore : bool)
| Throws.

Definition fetchCharityPage (body : BodyResult) : FetchOutcome :=
  match body with
  | Page charities hasMore => Resolved charities hasMore
  | Throws => Resolved [] false
  end.

(** [realCharityData], the page that the demonstration source returns for
    page 1. *)
Definition realCharityData : list Charity :=
  [ mkCharity (str "American Red Cross")
      (str "431 18th Street NW, Washington, DC 20006")
      (str "https://www.redcross.org") (Some (str "info@redcross.org")) (str "DC");
    mkCharity (str "Feeding America")
      (str "161 North Clark Street, Chicago, IL 60601")
      (str "https://www.feedingamerica.org") (Some (str "info@feedingamerica.org"))
      (str "IL");
    mkCharity (str "Habitat for Humanity")
      (str "285 Peachtree Center Ave NE, Atlanta, GA 30303")
      (str "https://www.habitat.org") (Some (str "info@habitat.org")) (str "GA");
    mkCharity (str "St. Jude Children's Research Hospital")
      (str "262 Danny Thomas Place, Memphis, TN 38105")
      (str "https://www.stjude.org") (Some (str "donors@stjude.org")) (str "TN");
    mkCharity (str "United Way Worldwide")
      (str "701 N Fairfax St, Alexandria, VA 22314")
      (str "https://www.unitedway.org") (Some (str "info@unitedway.org")) (str "VA");
    mkCharity (str "Doctors Without Borders")
      (str "40 Rector St, New York, NY 10006")
      (str "https://www.doctorswithoutborders.org")
      (Some (str "donations@doctorswithoutborders.org")) (str "NY");
    mkCharity (str "World Wildlife Fund")
      (str "1250 24th Street, N.W., Washington, DC 20037")
      (str "https://www.worldwildlife.org") (Some (str "info@wwfus.org")) (str "DC");
    mkCharity (str "The Salvation Army")
      (str "615 Slaters Lane, Alexandria, VA 22313")
      (str "https://www.salvationarmyusa.org") (Some (str "info@salvationarmy.org"))
      (str "VA");
    mkCharity (str "Boys & Girls Clubs of America")
      (str "1275 Peachtree St NE, Atlanta, GA 30309")
      (str "https://www.bgca.org") (Some (str "info@bgca.org")) (str "GA");
    mkCharity (str "Make-A-Wish Foundation")
      (str "1702 E Highland Ave, Phoenix, AZ 85016")
      (str "https://www.wish.org") (Some (str "info@wish.org")) (str "AZ") ].

(** [Partial<ScraperConfig>]: either key may be missing. *)
Record PartialConfig := mkPartialConfig {
  p_sourceUrl : option (list N);
  p_selectors : option Selectors
}.

(** [updateScraperConfig]: [scraperConfig = { ...scraperConfig, ...config }],
    the keys that [config] has replace those of the module variable. *)
Definition updateScraperConfig (scraperConfig : ScraperConfig) (config : PartialConfig)
  : ScraperConfig :=
  {| cfg_sourceUrl := default (cfg_sourceUrl scraperConfig) (p_sourceUrl config);
     selectors := default (selectors scraperConfig) (p_selectors config) |}.

(** A whole [ScraperConfig] passed where a partial one is expected. *)
Definition wholeConfig (config : ScraperConfig) : PartialConfig :=
  {| p_sourceUrl := Some (cfg_sourceUrl config);
     p_selectors := Some (selectors config) |}.

(** The text of a non-negative integer in a template literal: its decimal
    digits. *)
Fixpoint digitsOf (u : Decimal.uint) : list N :=
  match u with
  | Decimal.Nil => []
  | Decimal.D0 u => 48 :: digitsOf u
  | Decimal.D1 u => 49 :: digitsOf u
  | Decimal.D2 u => 50 :: digitsOf u
  | Decimal.D3 u => 51 :: digitsOf u
  | Decimal.D4 u => 52 :: digitsOf u
  | Decimal.D5 u => 53 :: digitsOf u
  | Decimal.D6 u => 54 :: digitsOf u
  | Decimal.D7 u => 55 :: digitsOf u
  | Decimal.D8 u => 56 :: digitsOf u
  | Decimal.D9 u => 57 :: digitsOf u
  end.

Definition numberToString (n : nat) : list N := digitsOf (Nat.to_uint n).

(** [s.split(sep)] for a non-empty separator: [cur] holds the piece being
    read, latest code unit first, and [skip] counts the code units of a
    separator still to pass over. *)
Fixpoint splitFrom (sep s cur : list N) (skip : nat) : list (list N) :=
  match s with
  | [] => [rev cur]
  | c :: t =>
      match skip with
      | S k => splitFrom sep t cur k
      | O =>
          if startsWith s sep
          then rev cur :: splitFrom sep t [] (length sep - 1)
          else splitFrom sep t (c :: cur) 0
      end
  end.

Definition split (sep s : list N) : list (list N) := splitFrom sep s [] 0.

(** [statesList] of [generateMoreCharities]. *)
Definition statesList : list (list N) :=
  map str [ "CA"; "NY"; "TX"; "FL"; "IL"; "PA"; "OH"; "GA"; "NC"; "MI";
            "VA"; "WA"; "AZ"; "MA"; "TN"; "IN"; "MO"; "MD"; "WI"; "CO" ]%string.

Definition noCharity : Charity := mkCharity [] [] [] None [].

(** [randomBase.website.split('//')[1].split('.')[0]]. *)
Definition siteLabel (randomBase : Charity) : list N :=
  nth 0 (split (str ".") (nth 1 (split (str "//") (website randomBase)) [])) [].

(** [generateMoreCharities(page, count)], as [fetchCharityPage] calls it:
    with [page] from 2 to 20 and [count] from 5 to 10. *)
Definition generateMoreCharities (page count : nat) : list Charity :=
  let baseIndex := ((page - 1) * count)%nat in
  map (fun i =>
         let index := (baseIndex + i)%nat in
         let randomState := nth (index mod length statesList) statesList [] in
         let randomBase :=
           nth (index mod length realCharityData) realCharityData noCharity in
         {| name := name randomBase ++ str " " ++ numberToString (index + 1);
            address := numberToString (123 + index) ++ str " Main St, City, "
                       ++ randomState ++ str " " ++ numberToString (10000 + index);
            website := str "https://" ++ siteLabel randomBase
                       ++ numberToString index ++ str ".org";
            email := Some (str "info@" ++ siteLabel randomBase
                           ++ numberToString index ++ str ".org");
            state := randomState |})
      (seq 0 count).

(** What the [try] of [fetchCharityPage] settles to when nothing throws: the
    answer of the demonstration source.  [roll] is
    [Math.floor(Math.random() * 6)], a number from 0 to 5. *)
Definition demoPage (pageNumber roll : nat) : BodyResult :=
  if (pageNumber =? 1)%nat then Page realCharityData true
  else if (20 <? pageNumber)%nat then Page [] false
  else Page (generateMoreCharities pageNumber (roll + 5)) (pageNumber <? 20)%nat.








(** The values that the code gives the [state] of a record: what
    [extractState] returns (in [scrapeWebpage]), a code of [statesList] (in
    [generateMoreCharities]), or the [state] of a record of
    [realCharityData]. *)
Definition producedState (s : list N) : Prop :=
  (exists address, s = extractState address) \/
  In s statesList \/
  In s (map state realCharityData).

End Scraper.

(** ** The control panel, component [App] *)

Module App.
Import Scraper.

Local Open Scope nat_scope.

(** The lines that [addLogMessage] receives, without the time stamp it puts
    in front of each. *)
Inductive LogMessage :=
| LoadedFromStorage (n : nat)
| ProcessingPage (page : nat)
| NoMoreItemsFound
| ProcessedPage (page found : nat)
| BatchComplete
| ErrorProcessingPage (page : nat) (message : list N)
| NoMoreItemsToScrape
| UsingSourceUrl (url : list N)
| StartingScraper
| ScraperPaused
| ScraperReset
| NoDataToExport
| PreparingExport
| ExportedItems (n : nat).

(** What the object [states] holds under a key: a number, or, under a key
    that names a member of [Object.prototype], a string: the text of that
    member followed by [ones] characters [1] (see [countState]). *)
Inductive TallyValue :=
| Count (n : nat)
| Appended (ones : nat).

(** The [useState] cells of [App].  Page numbers and counts are JavaScript
    numbers that only ever hold small non-negative integers; [states] is the
    object used as a map from region to count, with the properties of its
    own. *)
Record AppState := mkAppState {
  isRunning : bool;
  currentPage : nat;
  processedCount : nat;
  log : list LogMessage;
  states : gmap (list N) TallyValue;
  charityData : list Charity;
  isExporting : bool;
  hasMorePages : bool;
  isProcessing : bool;
  showSettings : bool;
  scraperConfig : ScraperConfig;
  sourceUrl : list N
}.

Definition setIsRunning (v : bool) (s : AppState) : AppState :=
  mkAppState v (currentPage s) (processedCount s) (log s) (states s)
    (charityData s) (isExporting s) (hasMorePages s) (isProcessing s)
    (showSettings s) (scraperConfig s) (sourceUrl s).
Definition setCurrentPage (v : nat) (s : AppState) : AppState :=
  mkAppState (isRunning s) v (processedCount s) (log s) (states s)
    (charityData s) (isExporting s) (hasMorePages s) (isProcessing s)
    (showSettings s) (scraperConfig s) (sourceUrl s).
Definition setProcessedCount (v : nat) (s : AppState) : AppState :=
  mkAppState (isRunning s) (currentPage s) v (log s) (states s)
    (charityData s) (isExporting s) (hasMorePages s) (isProcessing s)
    (showSettings s) (scraperConfig s) (sourceUrl s).
Definition setLog (v : list LogMessage) (s : AppState) : AppState :=
  mkAppState (isRunning s) (currentPage s) (processedCount s) v (states s)
    (charityData s) (isExporting s) (hasMorePages s) (isProcessing s)
    (showSettings s) (scraperConfig s) (sourceUrl s).
Definition setStates (v : gmap (list N) TallyValue) (s : AppState) : AppState :=
  mkAppState (isRunning s) (currentPage s) (processedCount s) (log s) v
    (charityData s) (isExporting s) (hasMorePages s) (isProcessing s)
    (showSettings s) (scraperConfig s) (sourceUrl s).
Definition setCharityData (v : list Charity) (s : AppState) : AppState :=
  mkAppState (isRunning s) (currentPage s) (processedCount s) (log s) (states s)
    v (isExporting s) (hasMorePages s) (isProcessing s)
    (showSettings s) (scraperConfig s) (sourceUrl s).
Definition setIsExporting (v : bool) (s : AppState) : AppState :=
  mkAppState (isRunning s) (currentPage s) (processedCount s) (log s) (states s)
    (charityData s) v (hasMorePages s) (isProcessing s)
    (showSettings s) (scraperConfig s) (sourceUrl s).
Definition setHasMorePages (v : bool) (s : AppState) : AppState :=
  mkAppState (isRunning s) (currentPage s) (processedCount s) (log s) (states s)
    (charityData s) (isExporting s) v (isProcessing s)
    (showSettings s) (scraperConfig s) (sourceUrl s).
Definition setIsProcessing (v : bool) (s : AppState) : AppState :=
  mkAppState (isRunning s) (currentPage s) (processedCount s) (log s) (states s)
    (charityData s) (isExporting s) (hasMorePages s) v
    (showSettings s) (scraperConfig s) (sourceUrl s).
Definition setScraperConfig (v : ScraperConfig) (s : AppState) : AppState :=
  mkAppState (isRunning s) (currentPage s) (processedCount s) (log s) (states s)
    (charityData s) (isExporting s) (hasMorePages s) (isProcessing s)
    (showSettings s) v (sourceUrl s).

(** [setLog(prev => [...prev, message])]. *)
Definition addLogMessage (m : LogMessage) (s : AppState) : AppState :=
  setLog (log s ++ [m]) s.

(** The state of the first render; [useState(getScraperConfig())]. *)
Definition initialState (config : ScraperConfig) : AppState :=
  {| isRunning := false; currentPage := 1; processedCount := 0; log := [];
     states := ∅; charityData := []; isExporting := false;
     hasMorePages := true; isProcessing := false; showSettings := false;
     scraperConfig := config; sourceUrl := cfg_sourceUrl config |}.

(** [const state = charity.state || 'Unknown']: the key under which a record
    is counted. *)
Definition regionOf (charity : Charity) : list N :=
  match state charity with
  | [] => Unknown
  | st => st
  end.

(** [newStates[state] = (newStates[state] || 0) + 1].  A number of the
    object's own grows by one, and a string of its own gets the character [1]
    appended.  Without a property of its own the lookup goes to
    [Object.prototype]: under the name of one of its functions it finds the
    function, which is truthy, and [+ 1] makes the string of the function's
    text and [1], stored as a property of the object; under [__proto__] it
    finds the prototype, and the assignment of the string goes to the setter
    of [__proto__], which ignores a value that is neither an object nor
    [null]; under any other key it finds [undefined] and stores 1. *)
Definition countState (newStates : gmap (list N) TallyValue) (charity : Charity)
  : gmap (list N) TallyValue :=
  let key := regionOf charity in
  match newStates !! key with
  | Some (Count n) => <[key := Count (n + 1)]> newStates
  | Some (Appended ones) => <[key := Appended (ones + 1)]> newStates
  | None =>
      if inheritedName key then
        if bool_decide (key = str "__proto__") then newStates
        else <[key := Appended 1]> newStates
      else <[key := Count 1]> newStates
  end.

(** The [forEach] over a page, or over the restored records. *)
Definition countStates (prev : gmap (list N) TallyValue) (charities : list Charity)
  : gmap (list N) TallyValue :=
  fold_left countState charities prev.

(** What [useCallback] closes over for [processNextPage]: the values of its
    dependency list in the render that created the function.  The function
    also names itself, so the call in its [setTimeout] callback runs with the
    same captured values. *)
Record Closure := mkClosure {
  cl_currentPage : nat;
  cl_processedCount : nat;
  cl_isRunning : bool
}.

Definition capture (s : AppState) : Closure :=
  {| cl_currentPage := currentPage s;
     cl_processedCount := processedCount s;
     cl_isRunning := isRunning s |}.

(** [processNextPage] up to its [await]: the guard, and when it lets the call
    through, the page whose fetch it starts. *)
Definition processNextPage_begin (cl : Closure) (s : AppState)
  : AppState * option nat :=
  if negb (cl_isRunning cl) || (1000 <=? cl_processedCount cl) then
    (setIsProcessing false s, None)
  else
    (addLogMessage (ProcessingPage (cl_currentPage cl)) (setIsProcessing true s),
     Some (cl_currentPage cl)).

Definition errorMessage (message : option (list N)) : list N :=
  match message with
  | Some m => m
  | None => str "Unknown error"
  end.

(** [processNextPage] from the [await] on, run on the state current when the
    fetch settles; the boolean tells whether it called [setTimeout] for the
    next iteration. *)
Definition processNextPage_resume (cl : Closure) (outcome : FetchOutcome)
    (s : AppState) : AppState * bool :=
  match outcome with
  | Resolved [] _ =>
      (addLogMessage NoMoreItemsFound
         (setIsProcessing false (setIsRunning false (setHasMorePages false s))),
       false)
  | Resolved charities hasMore =>
      let s := setStates (countStates (states s) charities) s in
      let s := setCharityData (charityData s ++ charities) s in
      let s := setCurrentPage (currentPage s + 1) s in
      let newProcessedCount := cl_processedCount cl + length charities in
      let s := setProcessedCount
                 (if 1000 <? newProcessedCount then 1000 else newProcessedCount) s in
      let s := addLogMessage
                 (ProcessedPage (cl_currentPage cl) (length charities)) s in
      if 1000 <=? newProcessedCount then
        (addLogMessage BatchComplete (setIsProcessing false (setIsRunning false s)),
         false)
      else
        let s := setHasMorePages hasMore s in
        if negb hasMore then
          (addLogMessage NoMoreItemsFound
             (setIsProcessing false (setIsRunning false s)),
           false)
        else (s, true)
  | Rejected message =>
      (setIsProcessing false
         (setIsRunning false
            (addLogMessage
               (ErrorProcessingPage (cl_currentPage cl) (errorMessage message)) s)),
       false)
  end.

(** The [setTimeout] callback: [setIsProcessing(false); processNextPage()];
    the two updates of [isProcessing] belong to one batch, so no render sees
    the value in between. *)
Definition timeoutCallback (cl : Closure) (s : AppState) : AppState * option nat :=
  processNextPage_begin cl (setIsProcessing false s).

(** [pauseScraping]. *)
Definition pauseScraping (s : AppState) : AppState :=
  addLogMessage ScraperPaused (setIsRunning false s).

(** The item of [localStorage] under the key ['scrapedData']: a text that
    [JSON.parse] reads as an array of records (as [JSON.stringify] wrote it),
    or a text on which it throws. *)
Inductive StoredItem :=
| Snapshot (data : list Charity)
| Unparseable.

(** The component with what it reaches outside its state: the storage item,
    the module variable of [scraper.ts], and the event loop: the calls of
    [processNextPage] suspended at their [await], and the timers set. *)
Record World := mkWorld {
  app : AppState;
  localStorage : option StoredItem;
  moduleConfig : ScraperConfig;
  awaiting : list Closure;
  timers : list Closure
}.

Definition withApp (s : AppState) (w : World) : World :=
  mkWorld s (localStorage w) (moduleConfig w) (awaiting w) (timers w).

(** A call of [processNextPage] that reached its [await] joins [awaiting]. *)
Definition invoke (cl : Closure) (r : AppState * option nat) (w : World) : World :=
  match r with
  | (s, Some _) =>
      mkWorld s (localStorage w) (moduleConfig w) (awaiting w ++ [cl]) (timers w)
  | (s, None) => withApp s w
  end.

(** [startScraping]; its [processNextPage] is the one of the render that
    built the handler, so it still sees [isRunning] as it was. *)
Definition startScraping (w : World) : World :=
  let s := app w in
  if negb (hasMorePages s) && (1 <? currentPage s) then
    withApp (addLogMessage NoMoreItemsToScrape s) w
  else
    let newConfig :=
      {| cfg_sourceUrl := sourceUrl s; selectors := selectors (scraperConfig s) |} in
    let s1 := setScraperConfig newConfig s in
    let s1 := addLogMessage (UsingSourceUrl (sourceUrl s)) s1 in
    let s1 := setIsRunning true s1 in
    let s1 := addLogMessage StartingScraper s1 in
    let w1 := mkWorld s1 (localStorage w) newConfig (awaiting w) (timers w) in
    invoke (capture s) (processNextPage_begin (capture s) s1) w1.

(** The effect that watches [isRunning], [isProcessing] and
    [processNextPage]; it calls the [processNextPage] of the current render. *)
Definition monitorEffect (w : World) : World :=
  let s := app w in
  if isRunning s && negb (isProcessing s) then
    invoke (capture s) (processNextPage_begin (capture s) s) w
  else w.

(** [resetScraper]; [confirmed] is the answer to [window.confirm]. *)
Definition resetScraper (confirmed : bool) (w : World) : World :=
  if confirmed then
    let s := app w in
    let s := setIsRunning false s in
    let s := setCurrentPage 1 s in
    let s := setProcessedCount 0 s in
    let s := setLog [] s in
    let s := setStates ∅ s in
    let s := setCharityData [] s in
    let s := setHasMorePages true s in
    let s := setIsProcessing false s in
    let s := addLogMessage ScraperReset s in
    mkWorld s None (moduleConfig w) (awaiting w) (timers w)
  else w.

(** The effect that runs once after the first render: restore the records
    and count their regions afresh. *)
Definition restore (w : World) : World :=
  match localStorage w with
  | Some (Snapshot parsedData) =>
      let s := setCharityData parsedData (app w) in
      let s := setStates (countStates ∅ parsedData) s in
      withApp (addLogMessage (LoadedFromStorage (length parsedData)) s) w
  | Some Unparseable => w
  | None => w
  end.

(** The effect on [charityData]: save the records when there are any. *)
Definition persist (w : World) : World :=
  match charityData (app w) with
  | [] => w
  | data =>
      mkWorld (app w) (Some (Snapshot data)) (moduleConfig w) (awaiting w) (timers w)
  end.

(** The component after mounting, for a given content of the storage. *)
Definition mount (item : option StoredItem) (config : ScraperConfig) : World :=
  persist (restore (mkWorld (initialState config) item config [] [])).

(** What can happen to the mounted component: a click on a button, a run of
    the monitoring effect, a timer that fires, a fetch that settles.  Timers
    and fetches are named by their position among the pending ones. *)
Inductive Event :=
| Start
| Pause
| Reset (confirmed : bool)
| EffectRuns
| TimerFires (i : nat)
| FetchSettles (i : nat) (outcome : FetchOutcome).

Definition timerFires (i : nat) (w : World) : option World :=
  match timers w !! i with
  | Some cl =>
      Some (invoke cl (timeoutCallback cl (app w))
              (mkWorld (app w) (localStorage w) (moduleConfig w)
                 (awaiting w) (delete i (timers w))))
  | None => None
  end.

Definition fetchSettles (i : nat) (outcome : FetchOutcome) (w : World)
  : option World :=
  match awaiting w !! i with
  | Some cl =>
      let (s, again) := processNextPage_resume cl outcome (app w) in
      Some (mkWorld s (localStorage w) (moduleConfig w)
              (delete i (awaiting w))
              (if again then timers w ++ [cl] else timers w))
  | None => None
  end.

(** One event, followed by the effect that saves the records; [None] when
    the event names a timer or a fetch that is not pending. *)
Definition handle (e : Event) (w : World) : option World :=
  option_map persist
    match e with
    | Start => Some (startScraping w)
    | Pause => Some (withApp (pauseScraping (app w)) w)
    | Reset confirmed => Some (resetScraper confirmed w)
    | EffectRuns => Some (monitorEffect w)
    | TimerFires i => timerFires i w
    | FetchSettles i outcome => fetchSettles i outcome w
    end.

Fixpoint run (events : list Event) (w : World) : option World :=
  match events with
  | [] => Some w
  | e :: events' =>
      match handle e w with
      | Some w' => run events' w'
      | None => None
      end
  end.

(** The states the component can be in, mounted on a storage that is empty,
    unreadable or holds an array of records. *)
Definition reachable (w : World) : Prop :=
  exists item config events, run events (mount item config) = Some w.

(** The pages that a sequence of events merges: the non-empty pages of its
    settled fetches, in order. *)
Fixpoint mergedPages (events : list Event) : list (list Charity) :=
  match events with
  | [] => []
  | FetchSettles _ (Resolved (c :: charities) _) :: events' =>
      (c :: charities) :: mergedPages events'
  | _ :: events' => mergedPages events'
  end.

(** A call of [processNextPage] got past its guard: it had captured
    [isRunning] true and a count below 1000. *)
Definition passedGuard (cl : Closure) : Prop :=
  cl_isRunning cl = true /\ cl_processedCount cl < 1000.

(** Every call in flight and every timer set belongs to such a call. *)
Definition pendingOK (w : World) : Prop :=
  Forall passedGuard (awaiting w) /\ Forall passedGuard (timers w).

(** *** Export *)

Local Open Scope N_scope.

Definition dquote : N := 34.
Definition comma : N := 44.
Definition newline : N := 10.

(** The [replace] of the export: every double quote of [field] becomes two. *)
Fixpoint replaceQuotes (field : list N) : list N :=
  match field with
  | [] => []
  | c :: rest =>
      if c =? dquote then dquote :: dquote :: replaceQuotes rest
      else c :: replaceQuotes rest
  end.

(** [parts.join(sep)]. *)
Fixpoint join (sep : list N) (parts : list (list N)) : list N :=
  match parts with
  | [] => []
  | [p] => p
  | p :: rest => p ++ sep ++ join sep rest
  end.

Definition quoted (field : list N) : list N := dquote :: field ++ [dquote].

(** The e-mail field: the address with its quotes doubled, or the empty
    string when there is none. *)
Definition emailField (charity : Charity) : list N :=
  match email charity with
  | Some e => replaceQuotes e
  | None => []
  end.

(** One data row: the five fields between double quotes, joined by commas;
    [replace] is applied to the first four, and [charity.state] is written
    as it stands. *)
Definition csvRow (charity : Charity) : list N :=
  join [comma]
    [ quoted (replaceQuotes (name charity));
      quoted (replaceQuotes (address charity));
      quoted (replaceQuotes (website charity));
      quoted (emailField charity);
      quoted (state charity) ].

Definition headers : list (list N) :=
  [str "Name"; str "Address"; str "Website"; str "Email"; str "State"].

Section CsvExport.

(** [String.prototype.localeCompare] of the host, applied to two names. *)
Variable localeCompare : list N -> list N -> Z.

(** [[...charityData].sort((a, b) => a.name.localeCompare(b.name))];
    [Array.prototype.sort] is stable: a record goes before the records
    already placed that it does not compare greater than. *)
Fixpoint insertByName (a : Charity) (sorted : list Charity) : list Charity :=
  match sorted with
  | [] => [a]
  | b :: rest =>
      if (localeCompare (name a) (name b) <=? 0)%Z then a :: sorted
      else b :: insertByName a rest
  end.

Definition sortByName (data : list Charity) : list Charity :=
  foldr insertByName [] data.

Definition csvContent (data : list Charity) : list N :=
  join [newline] (join [comma] headers :: map csvRow (sortByName data)).

(** [exportToCSV]: the new state and the content of the file offered for
    download, if any. *)
Definition exportToCSV (s : AppState) : AppState * option (list N) :=
  match charityData s with
  | [] => (addLogMessage NoDataToExport s, None)
  | data =>
      let s := setIsExporting true s in
      let s := addLogMessage PreparingExport s in
      let s := addLogMessage (ExportedItems (length (sortByName data))) s in
      (setIsExporting false s, Some (csvContent data))
  end.

End CsvExport.

(** The fields of a record as the export writes them; a record without
    e-mail has the empty string there. *)
Definition emailText (charity : Charity) : list N :=
  match email charity with
  | Some e => e
  | None => []
  end.

Definition recordFields (charity : Charity) : list (list N) :=
  [ name charity; address charity; website charity; emailText charity;
    state charity ].

(** *** A reader of delimited text

    Follows the specification's words: a standard reader of comma-separated
    text with double-quote quoting and doubled-quote escaping.  It reads one
    code unit at a time; [field] and [row] hold what has been read of the
    current field and row, latest first. *)
Inductive Mode := FieldStart | Unquoted | Quoted | QuoteSeen.

Record Reader := mkReader {
  mode : Mode;
  field : list N;
  row : list (list N);
  rows : list (list (list N))
}.

Definition push (c : N) (m : Mode) (r : Reader) : Reader :=
  mkReader m (c :: field r) (row r) (rows r).

Definition endField (r : Reader) : Reader :=
  mkReader FieldStart [] (rev (field r) :: row r) (rows r).

Definition endRow (r : Reader) : Reader :=
  mkReader FieldStart [] [] (rev (rev (field r) :: row r) :: rows r).

Definition feed (r : Reader) (c : N) : Reader :=
  match mode r with
  | FieldStart =>
      if c =? dquote then mkReader Quoted (field r) (row r) (rows r)
      else if c =? comma then endField r
      else if c =? newline then endRow r
      else push c Unquoted r
  | Unquoted =>
      if c =? comma then endField r
      else if c =? newline then endRow r
      else push c Unquoted r
  | Quoted =>
      if c =? dquote then mkReader QuoteSeen (field r) (row r) (rows r)
      else push c Quoted r
  | QuoteSeen =>
      if c =? dquote then push dquote Quoted r
      else if c =? comma then endField r
      else if c =? newline then endRow r
      else push c Unquoted r
  end.

(** At the end of the text a row that was begun is closed. *)
Definition finish (r : Reader) : list (list (list N)) :=
  match mode r, row r with
  | FieldStart, [] => rev (rows r)
  | _, _ => rev (rows (endRow r))
  end.

Definition parseDelimited (text : list N) : list (list (list N)) :=
  finish (fold_left feed text (mkReader FieldStart [] [] [])).

(** *** The measures of the tally invariant *)

Local Open Scope nat_scope.

(** The cells that only a settled fetch and a reset write. *)
Definition core (s : AppState) :=
  (currentPage s, processedCount s, states s, charityData s, hasMorePages s).

(** The counter after a page: [newProcessedCount > 1000 ? 1000 : newProcessedCount]. *)
Definition clamp (n : nat) : nat := if 1000 <? n then 1000 else n.

(** The number that an entry of the tally counts; a string counts nothing. *)
Definition countOf (value : TallyValue) : nat :=
  match value with
  | Count n => n
  | Appended _ => 0
  end.

(** The sum of the counts of the tally. *)
Definition tallyTotal (tally : gmap (list N) TallyValue) : nat :=
  map_fold (fun _ value total => countOf value + total) 0 tally.

(** The count of a region, 0 for a region without an entry. *)
Definition tallyOf (tally : gmap (list N) TallyValue) (region : list N) : nat :=
  match tally !! region with
  | Some value => countOf value
  | None => 0
  end.

(** Every entry of the tally is a number. *)
Definition numeric (tally : gmap (list N) TallyValue) : Prop :=
  forall region value, tally !! region = Some value -> exists n, value = Count n.

(** The record is counted under a key that [Object.prototype] does not
    have. *)
Definition ownKey (charity : Charity) : Prop :=
  inheritedName (regionOf charity) = false.

(** The number of records counted under a region. *)
Definition recordsOf (region : list N) (data : list Charity) : nat :=
  length (filter (fun charity => regionOf charity = region) data).

Definition tallyConsistent (s : AppState) : Prop :=
  tallyTotal (states s) = length (charityData s) /\
  forall region, tallyOf (states s) region = recordsOf region (charityData s).

End App.

(** ** The command-line scraper, [src/scraper.js] *)

Module CompanyScraper.
Import App.

Local Open Scope N_scope.

(** What [scrapeCompanyDetails] returns for a page it could read;
    [companyEmail] is the property that only [main] sets. *)
Record CompanyData := mkCompanyData {
  companyName : list N;
  companyURL : list N;
  companyEmail : option (list N)
}.

Definition NotFound : list N := str "Not Found".

(** A property in a template literal: its text, or [undefined]. *)
Definition shown (value : option (list N)) : list N :=
  match value with
  | Some text => text
  | None => str "undefined"
  end.

Definition csvHeaders : list N :=
  str "Company Name,Company URL,Phone Number,Company Email" ++ [newline].

Definition csvLine (row : CompanyData) : list N :=
  companyName row ++ [comma] ++ companyURL row ++ [comma] ++ shown (companyEmail row).

(** [saveToCSV]: the text written to the file. *)
Definition saveToCSV (data : list CompanyData) : list N :=
  csvHeaders ++ join [newline] (map csvLine data).

Section Main.

(** Whether [new URL(text)] returns; it throws on a text that is no URL. *)
Variable validURL : list N -> bool.

(** The body of the loop of [main] for one link, given what
    [scrapeCompanyDetails] returned ([None] for its [null]); the result is
    what is pushed on [results], or [None] when the body throws. *)
Definition visit (companyData : option CompanyData) : option CompanyData :=
  match companyData with
  | Some data =>
      if negb (bool_decide (companyURL data = NotFound)) then
        if validURL (companyURL data) then Some data else None
      else
        Some (mkCompanyData (companyName data) (companyURL data) (Some NotFound))
  | None => None
  end.

Fixpoint visitAll (details : list (option CompanyData)) : option (list CompanyData) :=
  match details with
  | [] => Some []
  | companyData :: rest =>
      match visit companyData with
      | Some row =>
          match visitAll rest with
          | Some results => Some (row :: results)
          | None => None
          end
      | None => None
      end
  end.

(** [main], given what the detail page of each company link returned: the
    text it saves, or [None] when it saves nothing (no links, or an
    exception on the way). *)
Definition main (details : list (option CompanyData)) : option (list N) :=
  match details with
  | [] => None
  | _ =>
      match visitAll details with
      | Some results => Some (saveToCSV results)
      | None => None
      end
  end.

End Main.

End CompanyScraper.

(** * Properties *)

(** ** Code-unit strings *)

Module JSFacts.

Lemma startsWith_prefix (sub s : list N) :
  startsWith s sub = true <-> exists post, s = sub ++ post.
Proof.
  revert s; induction sub as [|c sub IH]; intros s; simpl.
  - split; [intros _; now exists s | reflexivity].
  - destruct s as [|d s]; simpl.
    + split; [discriminate | intros [post H]; discriminate].
    + rewrite andb_true_iff, N.eqb_eq, IH. split.
      * intros [-> [post ->]]. now exists post.
      * intros [post H]. injection H as -> ->. split; [reflexivity | now exists post].
Qed.

Lemma includes_occursIn (sub s : list N) :
  includes s sub = true <-> occursIn sub s.
Proof.
  unfold occursIn. induction s as [|d s IH].
  - simpl. rewrite orb_false_r, startsWith_prefix. split.
    + intros [post H]. now exists [], post.
    + intros [pre [post H]]. destruct pre; [now exists post | discriminate].
  - cbn [includes]. rewrite orb_true_iff, startsWith_prefix, IH. split.
    + intros [[post H] | [pre [post H]]].
      * now exists [], post.
      * exists (d :: pre), post. now rewrite H.
    + intros [[|e pre] [post H]].
      * left. now exists post.
      * right. injection H as -> ->. now exists pre, post.
Qed.

Lemma includes_false (sub s : list N) :
  includes s sub = false <-> ~ occursIn sub s.
Proof.
  rewrite <- includes_occursIn. destruct (includes s sub); split; intros; congruence.
Qed.

Lemma digit_cases (c : N) :
  isDigit c = true -> In c [48; 49; 50; 51; 52; 53; 54; 55; 56; 57].
Proof.
  unfold isDigit. rewrite andb_true_iff, !N.leb_le. simpl. lia.
Qed.

Lemma digit_not_space (c : N) : isDigit c = true -> isSpace c = false.
Proof.
  intros H. apply digit_cases in H. simpl in H.
  repeat (destruct H as [<- | H]; [reflexivity |]). contradiction.
Qed.

(** The names that every object inherits begin with a small letter or an
    underscore. *)
Lemma inheritedName_head (key : list N) :
  inheritedName key = true ->
  exists c rest, key = c :: rest /\ isUpper c = false.
Proof.
  unfold inheritedName. rewrite existsb_exists. intros (nm & Hin & Heq).
  apply bool_decide_eq_true in Heq. subst nm.
  assert (Hall : forallb (fun nm => match nm with
                                    | c :: _ => negb (isUpper c)
                                    | [] => false
                                    end) objectPrototypeNames = true)
    by (vm_compute; reflexivity).
  rewrite forallb_forall in Hall. specialize (Hall key Hin).
  destruct key as [|c rest]; [discriminate|].
  exists c, rest. split; [reflexivity|]. now apply negb_true_iff.
Qed.

End JSFacts.

(** ** Region derivation *)

Module RegionDerivation.
Import JSFacts Scraper.

Lemma dropSpaces_split (s : list N) :
  exists ws, s = ws ++ dropSpaces s /\ Forall (fun c => isSpace c = true) ws.
Proof.
  induction s as [|c s [ws [Hs Hws]]]; simpl.
  - now exists [].
  - destruct (isSpace c) eqn:Hc.
    + exists (c :: ws). split; [now rewrite Hs at 1 | now constructor].
    + now exists [].
Qed.

Lemma dropSpaces_app (ws r : list N) :
  Forall (fun c => isSpace c = true) ws -> dropSpaces (ws ++ r) = dropSpaces r.
Proof.
  induction 1 as [|c ws Hc _ IH]; simpl; [reflexivity | now rewrite Hc].
Qed.

Lemma matchAt_zipPattern (code s : list N) :
  matchAt s = Some code <-> zipPattern code s.
Proof.
  unfold zipPattern. split.
  - destruct s as [|a [|b [|w rest]]]; simpl; try discriminate.
    destruct (isUpper a) eqn:Ha; [|discriminate].
    destruct (isUpper b) eqn:Hb; [|discriminate].
    destruct (isSpace w) eqn:Hw; [|discriminate]. simpl.
    destruct (dropSpaces_split rest) as [ws [Hrest Hws]].
    destruct (dropSpaces rest) as [|d1 [|d2 [|d3 [|d4 [|d5 tl]]]]]; try discriminate.
    destruct (isDigit d1) eqn:H1; [|discriminate].
    destruct (isDigit d2) eqn:H2; [|discriminate].
    destruct (isDigit d3) eqn:H3; [|discriminate].
    destruct (isDigit d4) eqn:H4; [|discriminate].
    destruct (isDigit d5) eqn:H5; [|discriminate]. simpl.
    intros [= <-].
    exists a, b, (w :: ws), [d1; d2; d3; d4; d5], tl.
    repeat split; try assumption; try discriminate.
    + simpl. now rewrite Hrest at 1.
    + now constructor.
    + repeat constructor; assumption.
  - intros (a & b & ws & ds & rest & -> & -> & Ha & Hb & Hne & Hws & Hlen & Hds).
    destruct ws as [|w ws]; [contradiction|].
    inversion Hws as [|? ? Hw Hws']; subst.
    destruct ds as [|d1 [|d2 [|d3 [|d4 [|d5 [|? ?]]]]]]; try discriminate.
    inversion Hds as [|? ? H1 Hds1]; subst. inversion Hds1 as [|? ? H2 Hds2]; subst.
    inversion Hds2 as [|? ? H3 Hds3]; subst. inversion Hds3 as [|? ? H4 Hds4]; subst.
    inversion Hds4 as [|? ? H5 _]; subst.
    simpl. rewrite Ha, Hb, Hw. simpl.
    rewrite dropSpaces_app by assumption. simpl.
    rewrite (digit_not_space _ H1), H1, H2, H3, H4, H5. reflexivity.
Qed.

Lemma stateZipMatch_None (s : list N) :
  stateZipMatch s = None <-> ~ zipOccurs s.
Proof.
  unfold zipOccurs. induction s as [|c s IH].
  - simpl. split; [|reflexivity]. intros _ (pre & suf & code & Hs & Hp).
    destruct pre; [|discriminate]. simpl in Hs; subst suf.
    apply matchAt_zipPattern in Hp. discriminate.
  - cbn [stateZipMatch]. destruct (matchAt (c :: s)) as [code|] eqn:Hm.
    + split; [discriminate|]. intros H. exfalso. apply H.
      exists [], (c :: s), code. split; [reflexivity | now apply matchAt_zipPattern].
    + rewrite IH. split.
      * intros H (pre & suf & code & Hs & Hp). destruct pre as [|d pre]; simpl in Hs.
        -- subst suf. apply matchAt_zipPattern in Hp. congruence.
        -- injection Hs as -> ->. apply H. now exists pre, suf, code.
      * intros H (pre & suf & code & Hs & Hp). apply H.
        exists (c :: pre), suf, code. split; [now rewrite Hs | assumption].
Qed.

Lemma zipPattern_functional (code code' s : list N) :
  zipPattern code s -> zipPattern code' s -> code = code'.
Proof.
  intros H H'. apply matchAt_zipPattern in H, H'. congruence.
Qed.

Lemma stateZipMatch_leftmost (code s : list N) :
  stateZipMatch s = Some code <-> leftmostZip code s.
Proof.
  unfold leftmostZip. induction s as [|c s IH].
  - simpl. split; [discriminate|]. intros (pre & suf & Hs & Hp & _).
    destruct pre; [|discriminate]. simpl in Hs; subst suf.
    apply matchAt_zipPattern in Hp. discriminate.
  - cbn [stateZipMatch]. destruct (matchAt (c :: s)) as [code0|] eqn:Hm.
    + split.
      * intros [= <-]. exists [], (c :: s). split; [reflexivity|].
        split; [now apply matchAt_zipPattern|]. simpl. intros; lia.
      * intros (pre & suf & Hs & Hp & Hmin). destruct pre as [|d pre].
        -- simpl in Hs; subst suf. apply matchAt_zipPattern in Hp. congruence.
        -- exfalso. apply (Hmin [] (c :: s) code0); [reflexivity | simpl; lia |].
           now apply matchAt_zipPattern.
    + rewrite IH. split.
      * intros (pre & suf & Hs & Hp & Hmin). exists (c :: pre), suf.
        split; [now rewrite Hs|]. split; [assumption|].
        intros [|d pre'] suf' code' Hs' Hlt Hp'.
        -- simpl in Hs'; subst suf'. apply matchAt_zipPattern in Hp'. congruence.
        -- injection Hs' as -> Hs'. apply (Hmin pre' suf' code'); [assumption | simpl in Hlt; lia | assumption].
      * intros (pre & suf & Hs & Hp & Hmin). destruct pre as [|d pre].
        -- simpl in Hs; subst suf. apply matchAt_zipPattern in Hp. congruence.
        -- injection Hs as <- ->. exists pre, suf. split; [reflexivity|].
           split; [assumption|]. intros pre' suf' code' Hs' Hlt.
           apply (Hmin (c :: pre') suf' code'); [simpl; now rewrite Hs' | simpl; lia].
Qed.

(** The table loop returns the code of the first entry, in insertion order,
    whose name occurs in the address. *)
Lemma lookupName_Some (addr : list N) (table : list (list N * list N)) (code : list N) :
  lookupName addr table = Some code <->
  exists l1 nm l2,
    table = l1 ++ (nm, code) :: l2 /\ occursIn nm addr /\
    forall n c, In (n, c) l1 -> ~ occursIn n addr.
Proof.
  induction table as [|[n0 c0] table IH]; simpl.
  - split; [discriminate|]. intros (l1 & nm & l2 & H & _). destruct l1; discriminate.
  - destruct (includes addr n0) eqn:Hi.
    + apply includes_occursIn in Hi. split.
      * intros [= <-]. exists [], n0, table. repeat split; [assumption | intros ? ? []].
      * intros (l1 & nm & l2 & H & Hocc & Hno). destruct l1 as [|[n1 c1] l1]; simpl in H.
        -- now injection H as _ <- _.
        -- injection H as <- <- _. exfalso. apply (Hno n0 c0); [now left | assumption].
    + apply includes_false in Hi. rewrite IH. split.
      * intros (l1 & nm & l2 & -> & Hocc & Hno). exists ((n0, c0) :: l1), nm, l2.
        repeat split; [assumption|]. intros n c [[= <- <-] | Hin]; [assumption | eauto].
      * intros (l1 & nm & l2 & H & Hocc & Hno). destruct l1 as [|[n1 c1] l1]; simpl in H.
        -- injection H as <- <- _. contradiction.
        -- injection H as <- <- ->. exists l1, nm, l2. repeat split; [assumption|].
           intros n c Hin. apply (Hno n c). now right.
Qed.

Lemma lookupName_None (addr : list N) (table : list (list N * list N)) :
  lookupName addr table = None <->
  forall n c, In (n, c) table -> ~ occursIn n addr.
Proof.
  induction table as [|[n0 c0] table IH]; simpl.
  - split; [intros _ ? ? [] | reflexivity].
  - destruct (includes addr n0) eqn:Hi.
    + apply includes_occursIn in Hi. split; [discriminate|].
      intros H. exfalso. apply (H n0 c0); [now left | assumption].
    + apply includes_false in Hi. rewrite IH. split.
      * intros H n c [[= <- <-] | Hin]; [assumption | eauto].
      * intros H n c Hin. apply (H n c). now right.
Qed.

Lemma lookupName_app (addr : list N) (l1 l2 : list (list N * list N)) :
  lookupName addr (l1 ++ l2) =
  match lookupName addr l1 with
  | Some c => Some c
  | None => lookupName addr l2
  end.
Proof.
  induction l1 as [|[n c] l1 IH]; simpl; [reflexivity|].
  now destruct (includes addr n).
Qed.

Lemma lookupName_In (addr : list N) (table : list (list N * list N)) (code : list N) :
  lookupName addr table = Some code -> In code (map snd table).
Proof.
  induction table as [|[n c] table IH]; simpl; [discriminate|].
  destruct (includes addr n); [intros [= <-]; now left | auto].
Qed.

Lemma extractState_zip (addr code : list N) :
  stateZipMatch addr = Some code -> extractState addr = code.
Proof.
  intros H. unfold extractState. destruct addr; [discriminate | now rewrite H].
Qed.

Lemma extractState_names (addr : list N) :
  stateZipMatch addr = None ->
  extractState addr =
  match lookupName addr states with Some c => c | None => Unknown end.
Proof.
  intros H. unfold extractState. rewrite H. destruct addr; reflexivity.
Qed.

(** The region derived from an address is never the empty string. *)
Lemma extractState_nonempty (addr : list N) : extractState addr <> [].
Proof.
  destruct (stateZipMatch addr) as [code|] eqn:Hz.
  - rewrite (extractState_zip _ _ Hz). apply stateZipMatch_leftmost in Hz.
    destruct Hz as (_ & _ & _ & (a & b & _ & _ & _ & -> & _) & _). discriminate.
  - rewrite (extractState_names _ Hz).
    destruct (lookupName addr states) as [c|] eqn:Hl; [|discriminate].
    apply lookupName_In in Hl. intros ->. revert Hl. vm_compute. intuition discriminate.
Qed.

(** C4. Region derivation applies the precedence (a) the two capitals of the
    leftmost occurrence of two capitals, white space and a five-digit ZIP
    (the optional hyphen and four digits never matter), (b) else the code of
    the first entry of the 51-entry name table, in the table's order, whose
    name occurs in the address, (c) else ["Unknown"]; every address falls
    under (a) or has no such occurrence.  The three addresses of the
    specification give DC (although the name Washington occurs in the first
    one and the table maps it to WA), Unknown and IL.  [extractState] is a
    function of the address alone. *)
Theorem extractState_precedence :
  (forall addr code, leftmostZip code addr -> extractState addr = code) /\
  (forall addr l1 nm code l2,
     ~ zipOccurs addr ->
     states = l1 ++ (nm, code) :: l2 -> occursIn nm addr ->
     (forall n c, In (n, c) l1 -> ~ occursIn n addr) ->
     extractState addr = code) /\
  (forall addr,
     ~ zipOccurs addr ->
     (forall n c, In (n, c) states -> ~ occursIn n addr) ->
     extractState addr = Unknown) /\
  (forall addr, (exists code, leftmostZip code addr) \/ ~ zipOccurs addr) /\
  length states = 51%nat /\
  extractState (str "431 18th Street NW, Washington, DC 20006") = str "DC" /\
  lookupName (str "431 18th Street NW, Washington, DC 20006") states = Some (str "WA") /\
  extractState (str "123 Main St, City, Nowhere") = str "Unknown" /\
  extractState (str "789 Pine Rd, Chicago, IL 60601") = str "IL".
Proof.
  split; [|split; [|split; [|split; [|repeat split; vm_compute; reflexivity]]]].
  - intros addr code H. apply extractState_zip. now apply stateZipMatch_leftmost.
  - intros addr l1 nm code l2 Hz Hst Hocc Hno.
    apply stateZipMatch_None in Hz. rewrite (extractState_names _ Hz).
    assert (Hl : lookupName addr states = Some code).
    { apply lookupName_Some. now exists l1, nm, l2. }
    now rewrite Hl.
  - intros addr Hz Hno. apply stateZipMatch_None in Hz.
    rewrite (extractState_names _ Hz).
    apply lookupName_None in Hno. now rewrite Hno.
  - intros addr. destruct (stateZipMatch addr) as [code|] eqn:Hz.
    + left. exists code. now apply stateZipMatch_leftmost.
    + right. now apply stateZipMatch_None.
Qed.

(** The 45 entries that [Object.entries] lists before ["Virginia"]. *)
Lemma states_around_Virginia :
  states = firstn 45 states ++ (str "Virginia", str "VA") :: skipn 46 states /\
  In (str "West Virginia", str "WV") (skipn 46 states).
Proof. split; vm_compute; [reflexivity | tauto]. Qed.

Lemma West_Virginia_has_Virginia (addr : list N) :
  occursIn (str "West Virginia") addr -> occursIn (str "Virginia") addr.
Proof.
  intros (pre & post & ->). exists (pre ++ str "West "), post.
  rewrite <- app_assoc. reflexivity.
Qed.

Lemma extractState_West_Virginia (addr : list N) :
  ~ zipOccurs addr -> occursIn (str "West Virginia") addr ->
  extractState addr =
  match lookupName addr (firstn 45 states) with Some c => c | None => str "VA" end.
Proof.
  intros Hz Hwv. apply stateZipMatch_None in Hz. rewrite (extractState_names _ Hz).
  rewrite (proj1 states_around_Virginia) at 1. rewrite lookupName_app.
  destruct (lookupName addr (firstn 45 states)); [reflexivity|].
  cbn [lookupName]. apply West_Virginia_has_Virginia, includes_occursIn in Hwv.
  now rewrite Hwv.
Qed.

(** C10, as the specification states it, fails: an address without a ZIP
    match that contains both ["Texas"] and ["West Virginia"] derives TX. *)
Lemma West_Virginia_not_always_VA :
  ~ (forall addr,
       ~ zipOccurs addr -> occursIn (str "West Virginia") addr ->
       extractState addr = str "VA").
Proof.
  intros H.
  specialize (H (str "12 Texas Ave, Charleston, West Virginia")).
  assert (Hz : ~ zipOccurs (str "12 Texas Ave, Charleston, West Virginia"))
    by (apply stateZipMatch_None; vm_compute; reflexivity).
  assert (Ho : occursIn (str "West Virginia") (str "12 Texas Ave, Charleston, West Virginia"))
    by (apply includes_occursIn; vm_compute; reflexivity).
  specialize (H Hz Ho). vm_compute in H. discriminate.
Qed.

(** C10, amended.  For an address without a ZIP match that contains
    ["West Virginia"], region derivation never returns WV: it returns the
    code of the first of the 45 names listed before ["Virginia"] that the
    address contains, and VA when it contains none of them. *)
Theorem West_Virginia_never_WV (addr : list N) :
  ~ zipOccurs addr -> occursIn (str "West Virginia") addr ->
  extractState addr <> str "WV" /\
  ((forall n c, In (n, c) (firstn 45 states) -> ~ occursIn n addr) ->
   extractState addr = str "VA") /\
  (forall l1 n c l2,
     firstn 45 states = l1 ++ (n, c) :: l2 -> occursIn n addr ->
     (forall n' c', In (n', c') l1 -> ~ occursIn n' addr) ->
     extractState addr = c).
Proof.
  intros Hz Hwv. rewrite (extractState_West_Virginia _ Hz Hwv).
  split; [|split].
  - destruct (lookupName addr (firstn 45 states)) as [c|] eqn:Hl; [|discriminate].
    apply lookupName_In in Hl. intros ->. revert Hl. vm_compute. intuition discriminate.
  - intros Hno. apply lookupName_None in Hno. now rewrite Hno.
  - intros l1 n c l2 Hst Hocc Hno.
    assert (Hl : lookupName addr (firstn 45 states) = Some c).
    { apply lookupName_Some. now exists l1, n, l2. }
    now rewrite Hl.
Qed.

Lemma West_Virginia_never_WV_witness :
  extractState (str "Charleston, West Virginia") = str "VA" /\
  extractState (str "12 Texas Ave, Charleston, West Virginia") = str "TX".
Proof.
  assert (Hz : forall a, stateZipMatch a = None -> ~ zipOccurs a)
    by (intros a; apply stateZipMatch_None).
  assert (Ho : forall a, includes a (str "West Virginia") = true ->
                         occursIn (str "West Virginia") a)
    by (intros a; apply includes_occursIn).
  split.
  - apply (proj1 (proj2 (West_Virginia_never_WV (str "Charleston, West Virginia")
             (Hz (str "Charleston, West Virginia") eq_refl)
             (Ho (str "Charleston, West Virginia") eq_refl)))).
    apply lookupName_None. vm_compute. reflexivity.
  - apply (proj2 (proj2 (West_Virginia_never_WV
             (str "12 Texas Ave, Charleston, West Virginia")
             (Hz (str "12 Texas Ave, Charleston, West Virginia") eq_refl)
             (Ho (str "12 Texas Ave, Charleston, West Virginia") eq_refl)))
             (firstn 42 states) (str "Texas") (str "TX") (skipn 43 (firstn 45 states))).
    + vm_compute. reflexivity.
    + apply includes_occursIn. vm_compute. reflexivity.
    + apply lookupName_None. vm_compute. reflexivity.
Defined.

(** *** The range of the derivation and the reach of the table *)

Lemma stateZipMatch_capitals (addr code : list N) :
  stateZipMatch addr = Some code ->
  exists a b, isUpper a = true /\ isUpper b = true /\ code = [a; b].
Proof.
  intros Hz. apply stateZipMatch_leftmost in Hz.
  destruct Hz as (_ & _ & _ & (a & b & _ & _ & _ & -> & _ & Ha & Hb & _) & _).
  now exists a, b.
Qed.

Lemma lookupName_capitals (addr code : list N) :
  lookupName addr states = Some code ->
  exists a b, isUpper a = true /\ isUpper b = true /\ code = [a; b].
Proof.
  intros Hl. apply lookupName_In in Hl.
  assert (Hall : forallb (fun c => match c with
                                   | [a; b] => isUpper a && isUpper b
                                   | _ => false
                                   end) (map snd states) = true)
    by (vm_compute; reflexivity).
  rewrite forallb_forall in Hall. specialize (Hall code Hl).
  destruct code as [|a [|b [|? ?]]]; try discriminate.
  apply andb_true_iff in Hall. exists a, b. tauto.
Qed.

(** The range of region derivation: for every address the result is
    ["Unknown"] or two capital letters (the two capitals before a ZIP, or a
    code of the table), so it is never empty and never holds a quote, a
    comma or a line break. *)
Theorem extractState_range (addr : list N) :
  extractState addr = Unknown \/
  exists a b, isUpper a = true /\ isUpper b = true /\ extractState addr = [a; b].
Proof.
  destruct (stateZipMatch addr) as [code|] eqn:Hz.
  - right. rewrite (extractState_zip _ _ Hz).
    exact (stateZipMatch_capitals _ _ Hz).
  - rewrite (extractState_names _ Hz).
    destruct (lookupName addr states) as [c|] eqn:Hl; [|now left].
    right. exact (lookupName_capitals _ _ Hl).
Qed.

(** Every name of the table, taken alone as the address, derives its own
    code, except ["West Virginia"], which derives VA, the code of the
    earlier name ["Virginia"] that it contains. *)
Theorem table_names_derive (nm code : list N) :
  In (nm, code) states ->
  (extractState nm = code <-> nm <> str "West Virginia") /\
  (nm = str "West Virginia" -> extractState nm = str "VA" /\ code = str "WV").
Proof.
  intros Hin.
  assert (Hall : forallb (fun p => bool_decide
                            (bool_decide (extractState (fst p) = snd p)
                             = negb (bool_decide (fst p = str "West Virginia"))))
                   states = true) by (vm_compute; reflexivity).
  assert (Hwest : forallb (fun p => negb (bool_decide (fst p = str "West Virginia"))
                                    || bool_decide (snd p = str "WV"))
                    states = true) by (vm_compute; reflexivity).
  rewrite forallb_forall in Hall, Hwest.
  specialize (Hall _ Hin). specialize (Hwest _ Hin).
  apply bool_decide_eq_true in Hall. cbn [fst snd] in Hall, Hwest.
  destruct (decide (nm = str "West Virginia")) as [Hwv|Hwv].
  - rewrite (bool_decide_eq_true_2 _ Hwv) in Hall, Hwest.
    apply bool_decide_eq_false in Hall. apply bool_decide_eq_true in Hwest.
    split; [tauto|]. intros _. split; [|exact Hwest].
    rewrite Hwv. vm_compute. reflexivity.
  - rewrite (bool_decide_eq_false_2 _ Hwv) in Hall. apply bool_decide_eq_true in Hall.
    split; [tauto|]. intros H. contradiction.
Qed.

Lemma table_names_derive_witness :
  extractState (str "Arkansas") = str "AR" /\
  extractState (str "West Virginia") = str "VA".
Proof.
  split.
  - apply (proj1 (table_names_derive (str "Arkansas") (str "AR")
                    ltac:(vm_compute; tauto))).
    discriminate.
  - apply (proj2 (table_names_derive (str "West Virginia") (str "WV")
                    ltac:(vm_compute; tauto))).
    reflexivity.
Defined.

(** The first code unit of a derived region is a capital letter. *)
Lemma extractState_head (addr : list N) :
  exists c rest, extractState addr = c :: rest /\ isUpper c = true.
Proof.
  destruct (stateZipMatch addr) as [code|] eqn:Hz.
  - rewrite (extractState_zip _ _ Hz).
    destruct (stateZipMatch_capitals _ _ Hz) as (a & b & Ha & _ & ->). eauto.
  - rewrite (extractState_names _ Hz).
    destruct (lookupName addr states) as [code|] eqn:Hl.
    + destruct (lookupName_capitals _ _ Hl) as (a & b & Ha & _ & ->). eauto.
    + exists 85%N, (str "nknown"). split; reflexivity.
Qed.

End RegionDerivation.

(** ** The demonstration source *)

Module DemoSource.
Import Scraper RegionDerivation.

Local Open Scope nat_scope.

Lemma demoPage_checked :
  forallb
    (fun pageNumber =>
       forallb
         (fun roll =>
            match demoPage pageNumber roll with
            | Page charities hasMore =>
                bool_decide (length charities = if pageNumber =? 1 then 10 else roll + 5)
                && bool_decide (hasMore = (pageNumber <? 20))
                && forallb (fun c => bool_decide (state c = extractState (address c)))
                     charities
            | Throws => false
            end)
         (seq 0 6))
    (seq 1 20) = true.
Proof. vm_compute. reflexivity. Qed.


(** The demonstration source.  For a page number from 1 on and a roll from
    0 to 5, [fetchCharityPage] resolves; its page is empty exactly past page
    20 and never longer than 10 records (10 on page 1, the roll plus 5 on
    pages 2 to 20); [hasMore] is true exactly before page 20; and every
    record carries as [state] the region that [extractState] derives from its
    address. *)
Theorem demo_source (pageNumber roll : nat) :
  1 <= pageNumber -> roll <= 5 ->
  exists charities hasMore,
    fetchCharityPage (demoPage pageNumber roll) = Resolved charities hasMore /\
    hasMore = (pageNumber <? 20) /\
    (charities = [] <-> 20 < pageNumber) /\
    length charities <= 10 /\
    (2 <= pageNumber <= 20 -> length charities = roll + 5) /\
    Forall (fun c => state c = extractState (address c)) charities.
Proof.
  intros Hp Hr. destruct (Nat.ltb_spec 20 pageNumber) as [Hbig|Hsmall].
  - exists [], false. unfold demoPage.
    destruct (Nat.eqb_spec pageNumber 1); [lia|].
    destruct (Nat.ltb_spec 20 pageNumber); [|lia].
    destruct (Nat.ltb_spec pageNumber 20); [lia|].
    cbn [fetchCharityPage length]. repeat split; try lia; auto.
  - pose proof demoPage_checked as Hall. rewrite forallb_forall in Hall.
    specialize (Hall pageNumber). rewrite forallb_forall in Hall.
    specialize (Hall ltac:(apply in_seq; lia) roll ltac:(apply in_seq; lia)).
    destruct (demoPage pageNumber roll) as [charities hasMore|]; [|discriminate].
    apply andb_true_iff in Hall. destruct Hall as [Hall Hst].
    apply andb_true_iff in Hall. destruct Hall as [Hlen Hmore].
    apply bool_decide_eq_true in Hlen, Hmore.
    assert (Hder : Forall (fun c => state c = extractState (address c)) charities).
    { rewrite forallb_forall in Hst. apply Forall_forall. intros c Hc.
      apply list_elem_of_In in Hc. eapply bool_decide_eq_true_1, Hst, Hc. }
    exists charities, hasMore. cbn [fetchCharityPage].
    split; [reflexivity|]. split; [exact Hmore|].
    destruct (Nat.eqb_spec pageNumber 1) as [->|Hne].
    + split; [split; [intros ->; discriminate | lia]|].
      split; [lia|]. split; [lia | exact Hder].
    + split; [split; [intros ->; cbn in Hlen; lia | lia]|].
      split; [lia|]. split; [lia | exact Hder].
Qed.

Lemma demo_source_witness :
  exists charities,
    fetchCharityPage (demoPage 7 2) = Resolved charities true /\
    length charities = 7 /\
    Forall (fun c => state c = extractState (address c)) charities.
Proof.
  destruct (demo_source 7 2 ltac:(lia) ltac:(lia))
    as (charities & hasMore & Hf & Hm & _ & _ & Hlen & Hall).
  exists charities. rewrite Hf, Hm. split; [reflexivity|].
  split; [apply Hlen; lia | exact Hall].
Defined.

End DemoSource.

(** ** The ingestion controller *)

Module Controller.
Import Scraper App.

Local Open Scope nat_scope.

(** *** The tally *)

Lemma tallyTotal_insert (tally : gmap (list N) TallyValue) (r : list N)
    (value : TallyValue) :
  tallyTotal (<[r := value]> tally) + tallyOf tally r = tallyTotal tally + countOf value.
Proof.
  assert (Hcomm : forall (z1 z2 : TallyValue) (y : nat),
             countOf z1 + (countOf z2 + y) = countOf z2 + (countOf z1 + y))
    by (intros; lia).
  unfold tallyTotal, tallyOf. destruct (tally !! r) as [v|] eqn:Hr.
  - rewrite <- (insert_delete_eq tally).
    rewrite map_fold_insert_L;
      [|intros; apply Hcomm | apply lookup_delete_eq].
    rewrite (map_fold_delete_L _ _ r v tally);
      [lia | intros; apply Hcomm | assumption].
  - rewrite map_fold_insert_L; [lia | intros; apply Hcomm | assumption].
Qed.

Lemma tallyTotal_empty : tallyTotal ∅ = 0.
Proof. apply map_fold_empty. Qed.

Lemma numeric_empty : numeric ∅.
Proof. intros r v H. now rewrite lookup_empty in H. Qed.

(** Under a key that is not inherited a record adds one to a number. *)
Lemma countState_ownKey (tally : gmap (list N) TallyValue) (c : Charity) :
  ownKey c -> numeric tally ->
  countState tally c =
  <[regionOf c := Count (tallyOf tally (regionOf c) + 1)]> tally.
Proof.
  unfold ownKey, countState, tallyOf. intros Hk Hn.
  destruct (tally !! regionOf c) as [v|] eqn:Hv.
  - destruct (Hn _ _ Hv) as [n ->]. reflexivity.
  - now rewrite Hk.
Qed.

Lemma numeric_countState (tally : gmap (list N) TallyValue) (c : Charity) :
  ownKey c -> numeric tally -> numeric (countState tally c).
Proof.
  intros Hk Hn. rewrite (countState_ownKey _ _ Hk Hn). intros r v.
  rewrite lookup_insert. destruct (decide (regionOf c = r)).
  - intros [= <-]. eauto.
  - apply Hn.
Qed.

Lemma countState_lookup (tally : gmap (list N) TallyValue) (c : Charity) (r : list N) :
  ownKey c -> numeric tally ->
  countState tally c !! r =
  if decide (regionOf c = r) then Some (Count (tallyOf tally r + 1)) else tally !! r.
Proof.
  intros Hk Hn. rewrite (countState_ownKey _ _ Hk Hn), lookup_insert.
  now destruct (decide (regionOf c = r)) as [->|].
Qed.

Lemma tallyTotal_countState (tally : gmap (list N) TallyValue) (c : Charity) :
  ownKey c -> numeric tally ->
  tallyTotal (countState tally c) = tallyTotal tally + 1.
Proof.
  intros Hk Hn. rewrite (countState_ownKey _ _ Hk Hn).
  pose proof (tallyTotal_insert tally (regionOf c)
                (Count (tallyOf tally (regionOf c) + 1))) as H.
  cbn [countOf] in H. lia.
Qed.

(** The tally after counting records none of which has an inherited key:
    its entries, which are numbers, and its total. *)
Lemma countStates_ownKeys (data : list Charity) (tally : gmap (list N) TallyValue) :
  Forall ownKey data -> numeric tally ->
  numeric (countStates tally data) /\
  tallyTotal (countStates tally data) = tallyTotal tally + length data /\
  forall r,
    countStates tally data !! r =
    match recordsOf r data with
    | 0 => tally !! r
    | S k => Some (Count (tallyOf tally r + S k))
    end.
Proof.
  unfold countStates, recordsOf. intros Hall. revert tally.
  induction Hall as [|c data Hc _ IH]; intros tally Hn.
  - cbn [fold_left length]. split; [exact Hn|]. split; [lia | reflexivity].
  - cbn [fold_left].
    destruct (IH (countState tally c) (numeric_countState _ _ Hc Hn))
      as (Hnum & Htot & Hlook).
    split; [exact Hnum|]. split.
    + rewrite Htot, (tallyTotal_countState _ _ Hc Hn). cbn [length]. lia.
    + intros r. rewrite Hlook, filter_cons.
      unfold tallyOf at 1. rewrite (countState_lookup _ _ _ Hc Hn).
      destruct (decide (regionOf c = r)) as [Hr|Hr]; cbn [length].
      * destruct (length (filter (fun charity => regionOf charity = r) data));
          cbn [countOf]; [reflexivity | f_equal; f_equal; lia].
      * reflexivity.
Qed.

(** Under a name of [Object.prototype] nothing is counted: a record with
    the region [__proto__] leaves the tally as it is, and records with the
    region [constructor] leave a string under that key. *)
Lemma inherited_names_not_counted :
  let proto := mkCharity [] [] [] None (str "__proto__") in
  let ctor := mkCharity [] [] [] None (str "constructor") in
  countStates ∅ [proto] !! str "__proto__" = None /\
  tallyTotal (countStates ∅ [proto]) = 0 /\
  countStates ∅ [ctor; ctor] !! str "constructor" = Some (Appended 2) /\
  tallyTotal (countStates ∅ [ctor; ctor]) = 0.
Proof. repeat split; vm_compute; reflexivity. Qed.

Lemma recordsOf_app (r : list N) (d1 d2 : list Charity) :
  recordsOf r (d1 ++ d2) = recordsOf r d1 + recordsOf r d2.
Proof. unfold recordsOf. now rewrite filter_app, length_app. Qed.

(** For records whose [state] is not empty, the key is the [state]. *)
Lemma regionOf_state (c : Charity) : state c <> [] -> regionOf c = state c.
Proof. unfold regionOf. now destruct (state c). Qed.

(** *** What one event does to the counter, the tally and the records *)

Lemma app_persist (w : World) : app (persist w) = app w.
Proof. unfold persist. now destruct (charityData (app w)). Qed.

Lemma awaiting_persist (w : World) : awaiting (persist w) = awaiting w.
Proof. unfold persist. now destruct (charityData (app w)). Qed.

Lemma timers_persist (w : World) : timers (persist w) = timers w.
Proof. unfold persist. now destruct (charityData (app w)). Qed.

Lemma app_invoke (cl : Closure) (r : AppState * option nat) (w : World) :
  app (invoke cl r w) = fst r.
Proof. now destruct r as [s [p|]]. Qed.

Lemma timers_invoke (cl : Closure) (r : AppState * option nat) (w : World) :
  timers (invoke cl r w) = timers w.
Proof. now destruct r as [s [p|]]. Qed.

Lemma awaiting_invoke (cl : Closure) (r : AppState * option nat) (w : World) :
  awaiting (invoke cl r w) =
  match snd r with Some _ => awaiting w ++ [cl] | None => awaiting w end.
Proof. now destruct r as [s [p|]]. Qed.

Lemma begin_core (cl : Closure) (s : AppState) :
  core (fst (processNextPage_begin cl s)) = core s.
Proof.
  unfold processNextPage_begin.
  now destruct (negb (cl_isRunning cl) || (1000 <=? cl_processedCount cl)).
Qed.

Lemma begin_fetches (cl : Closure) (s : AppState) :
  snd (processNextPage_begin cl s) =
  if cl_isRunning cl && (cl_processedCount cl <? 1000)
  then Some (cl_currentPage cl) else None.
Proof.
  unfold processNextPage_begin. destruct (cl_isRunning cl); [|reflexivity].
  cbn [negb orb andb].
  destruct (Nat.leb_spec 1000 (cl_processedCount cl)),
           (Nat.ltb_spec (cl_processedCount cl) 1000); (reflexivity || lia).
Qed.

Lemma startScraping_core (w : World) : core (app (startScraping w)) = core (app w).
Proof.
  unfold startScraping.
  destruct (negb (hasMorePages (app w)) && (1 <? currentPage (app w))); [reflexivity|].
  now rewrite app_invoke, begin_core.
Qed.

Lemma monitorEffect_core (w : World) : core (app (monitorEffect w)) = core (app w).
Proof.
  unfold monitorEffect.
  destruct (isRunning (app w) && negb (isProcessing (app w))); [|reflexivity].
  now rewrite app_invoke, begin_core.
Qed.

Lemma timerFires_core (i : nat) (w w' : World) :
  timerFires i w = Some w' -> core (app w') = core (app w).
Proof.
  unfold timerFires, timeoutCallback. destruct (timers w !! i); [|discriminate].
  intros [= <-]. now rewrite app_invoke, begin_core.
Qed.

Lemma clamp_le (n : nat) : clamp n <= 1000.
Proof. unfold clamp. destruct (Nat.ltb_spec 1000 n); lia. Qed.

(** The three outcomes of a settled fetch, on the cells of [core]. *)
Lemma resume_core (cl : Closure) (outcome : FetchOutcome) (s : AppState) :
  let s' := fst (processNextPage_resume cl outcome s) in
  match outcome with
  | Resolved [] _ =>
      core s' = (currentPage s, processedCount s, states s, charityData s, false)
  | Resolved charities hasMore =>
      currentPage s' = currentPage s + 1 /\
      processedCount s' = clamp (cl_processedCount cl + length charities) /\
      states s' = countStates (states s) charities /\
      charityData s' = charityData s ++ charities
  | Rejected _ => core s' = core s
  end.
Proof.
  destruct outcome as [[|c charities] hasMore | message]; try reflexivity.
  unfold processNextPage_resume, clamp.
  destruct (1000 <=? cl_processedCount cl + length (c :: charities));
    [now repeat split|].
  destruct hasMore; now repeat split.
Qed.

Lemma handle_ledger (e : Event) (w w' : World) :
  handle e w = Some w' ->
  (processedCount (app w') = processedCount (app w) /\
   states (app w') = states (app w) /\
   charityData (app w') = charityData (app w)) \/
  (processedCount (app w') = 0 /\ states (app w') = ∅ /\ charityData (app w') = []) \/
  (exists n charities,
     processedCount (app w') = clamp n /\
     states (app w') = countStates (states (app w)) charities /\
     charityData (app w') = charityData (app w) ++ charities).
Proof.
  assert (Hcore : forall s s' : AppState, core s' = core s ->
            processedCount s' = processedCount s /\ states s' = states s /\
            charityData s' = charityData s)
    by (unfold core; intros s s' [= ? ? ? ? ?]; auto).
  unfold handle. destruct e as [| |confirmed| |i|i outcome]; simpl.
  - intros [= <-]. left. rewrite app_persist. apply Hcore, startScraping_core.
  - intros [= <-]. left. now rewrite app_persist.
  - intros [= <-]. rewrite app_persist. destruct confirmed; simpl; auto.
  - intros [= <-]. left. rewrite app_persist. apply Hcore, monitorEffect_core.
  - destruct (timerFires i w) as [w1|] eqn:Ht; simpl; [|discriminate].
    intros [= <-]. left. rewrite app_persist. eapply Hcore, timerFires_core, Ht.
  - unfold fetchSettles. destruct (awaiting w !! i) as [cl|]; simpl; [|discriminate].
    pose proof (resume_core cl outcome (app w)) as Hr.
    destruct (processNextPage_resume cl outcome (app w)) as [s again]. simpl in Hr.
    intros [= <-]. rewrite app_persist. simpl.
    destruct outcome as [[|c charities] hasMore | message].
    + left. unfold core in Hr. now injection Hr as _ ? ? ? _.
    + right. right. destruct Hr as (_ & Hn & Hs & Hd). eauto.
    + left. now apply Hcore.
Qed.

Lemma run_invariant (P : World -> Prop) :
  (forall e w w', P w -> handle e w = Some w' -> P w') ->
  forall events w w', P w -> run events w = Some w' -> P w'.
Proof.
  intros Hstep events. induction events as [|e events IH]; simpl; intros w w' Hw.
  - now intros [= <-].
  - destruct (handle e w) as [w1|] eqn:He; [|discriminate]. eauto.
Qed.

Lemma mount_ledger (item : option StoredItem) (config : ScraperConfig) :
  let s := app (mount item config) in
  processedCount s = 0 /\
  exists data, charityData s = data /\ states s = countStates ∅ data /\
    match item with Some (Snapshot d) => data = d | _ => data = [] end.
Proof.
  unfold mount. rewrite app_persist. unfold restore. simpl.
  destruct item as [[d|]|]; simpl; (split; [reflexivity|]); eexists; eauto.
Qed.

Lemma reachable_processedCount (w : World) :
  reachable w -> processedCount (app w) <= 1000.
Proof.
  intros (item & config & events & Hrun).
  apply (run_invariant (fun w => processedCount (app w) <= 1000))
    with (3 := Hrun).
  - intros e w1 w2 Hw1 He. apply handle_ledger in He.
    destruct He as [(-> & _) | [(-> & _) | (n & cs & -> & _)]];
      [assumption | lia | apply clamp_le].
  - destruct (mount_ledger item config) as [-> _]. lia.
Qed.

Lemma countStates_app (tally : gmap (list N) TallyValue) (d1 d2 : list Charity) :
  countStates tally (d1 ++ d2) = countStates (countStates tally d1) d2.
Proof. unfold countStates. apply fold_left_app. Qed.

Lemma reachable_tally_of_records (w : World) :
  reachable w -> states (app w) = countStates ∅ (charityData (app w)).
Proof.
  intros (item & config & events & Hrun).
  apply (run_invariant (fun w => states (app w) = countStates ∅ (charityData (app w))))
    with (3 := Hrun).
  - intros e w1 w2 Hw1 He. apply handle_ledger in He.
    destruct He as [(_ & -> & ->) | [(_ & -> & ->) | (n & cs & _ & -> & ->)]].
    + exact Hw1.
    + reflexivity.
    + now rewrite countStates_app, Hw1.
  - destruct (mount_ledger item config) as (_ & data & -> & -> & _). reflexivity.
Qed.

Lemma reachable_tallyConsistent (w : World) :
  reachable w -> Forall ownKey (charityData (app w)) ->
  numeric (states (app w)) /\ tallyConsistent (app w).
Proof.
  intros Hw Hall. unfold tallyConsistent.
  rewrite (reachable_tally_of_records w Hw).
  destruct (countStates_ownKeys _ ∅ Hall numeric_empty) as (Hnum & Htot & Hlook).
  split; [exact Hnum|]. split.
  - rewrite Htot, tallyTotal_empty. reflexivity.
  - intros r. unfold tallyOf at 1. rewrite Hlook.
    now destruct (recordsOf r (charityData (app w))).
Qed.

(** *** Settled fetches *)

Lemma handle_fetchSettles (w : World) (i : nat) (cl : Closure) (outcome : FetchOutcome) :
  awaiting w !! i = Some cl ->
  handle (FetchSettles i outcome) w =
  Some (persist
          (mkWorld (fst (processNextPage_resume cl outcome (app w)))
             (localStorage w) (moduleConfig w) (delete i (awaiting w))
             (if snd (processNextPage_resume cl outcome (app w))
              then timers w ++ [cl] else timers w))).
Proof.
  intros Hi. unfold handle, fetchSettles. rewrite Hi.
  now destruct (processNextPage_resume cl outcome (app w)).
Qed.

Lemma resume_batch_full (cl : Closure) (charities : list Charity) (hasMore : bool)
    (s : AppState) :
  charities <> [] -> 1000 <= cl_processedCount cl + length charities ->
  processNextPage_resume cl (Resolved charities hasMore) s =
  (addLogMessage BatchComplete
     (setIsProcessing false
        (setIsRunning false
           (addLogMessage (ProcessedPage (cl_currentPage cl) (length charities))
              (setProcessedCount 1000
                 (setCurrentPage (currentPage s + 1)
                    (setCharityData (charityData s ++ charities)
                       (setStates (countStates (states s) charities) s))))))),
   false).
Proof.
  intros Hne Hn. destruct charities as [|c charities]; [contradiction|].
  unfold processNextPage_resume.
  destruct (Nat.leb_spec 1000 (cl_processedCount cl + length (c :: charities)));
    [|lia].
  destruct (Nat.ltb_spec 1000 (cl_processedCount cl + length (c :: charities))).
  - reflexivity.
  - replace (cl_processedCount cl + length (c :: charities)) with 1000 by lia.
    reflexivity.
Qed.

Lemma resume_continues (cl : Closure) (charities : list Charity) (s : AppState) :
  charities <> [] -> cl_processedCount cl + length charities < 1000 ->
  processNextPage_resume cl (Resolved charities true) s =
  (setHasMorePages true
     (addLogMessage (ProcessedPage (cl_currentPage cl) (length charities))
        (setProcessedCount (cl_processedCount cl + length charities)
           (setCurrentPage (currentPage s + 1)
              (setCharityData (charityData s ++ charities)
                 (setStates (countStates (states s) charities) s))))),
   true).
Proof.
  intros Hne Hn. destruct charities as [|c charities]; [contradiction|].
  unfold processNextPage_resume.
  destruct (Nat.leb_spec 1000 (cl_processedCount cl + length (c :: charities)));
    [lia|].
  destruct (Nat.ltb_spec 1000 (cl_processedCount cl + length (c :: charities)));
    [lia|].
  reflexivity.
Qed.

(** C1. In every state the component can reach, by any sequence of clicks on
    Start, Pause and Reset, runs of the monitoring effect, timers and settled
    fetches, [processedCount] is at most 1000.  When a settled fetch brings a
    non-empty page that takes the count of its call to 1000 or more, the
    counter is set to exactly 1000 and the controller halts: [isRunning] and
    [isProcessing] become false, no timer is set, the line logged last is the
    batch-complete one and not the scraping-complete one, and [hasMorePages]
    keeps its value. *)
Theorem batch_ceiling :
  (forall w, reachable w -> processedCount (app w) <= 1000) /\
  (forall w i cl charities hasMore,
     awaiting w !! i = Some cl -> charities <> [] ->
     1000 <= cl_processedCount cl + length charities ->
     exists w',
       handle (FetchSettles i (Resolved charities hasMore)) w = Some w' /\
       processedCount (app w') = 1000 /\
       isRunning (app w') = false /\ isProcessing (app w') = false /\
       hasMorePages (app w') = hasMorePages (app w) /\
       last (log (app w')) = Some BatchComplete /\
       timers w' = timers w /\ awaiting w' = delete i (awaiting w)).
Proof.
  split; [exact reachable_processedCount|].
  intros w i cl charities hasMore Hi Hne Hn. eexists. split.
  - apply (handle_fetchSettles _ _ _ _ Hi).
  - rewrite app_persist, timers_persist, awaiting_persist.
    rewrite (resume_batch_full _ _ _ _ Hne Hn). cbn [fst snd app timers awaiting].
    repeat split. unfold addLogMessage at 1. cbn [log setLog]. apply last_snoc.
Qed.

Lemma batch_ceiling_witness :
  exists w w',
    run [Start; EffectRuns] (mount None defaultScraperConfig) = Some w /\
    handle (FetchSettles 0 (Resolved (repeat (mkCharity [] [] [] None []) 1001) true)) w
      = Some w' /\
    processedCount (app w') = 1000 /\ isRunning (app w') = false /\
    hasMorePages (app w') = true /\ last (log (app w')) = Some BatchComplete.
Proof.
  exists (default (mount None defaultScraperConfig)
            (run [Start; EffectRuns] (mount None defaultScraperConfig))).
  destruct (proj2 batch_ceiling
              (default (mount None defaultScraperConfig)
                 (run [Start; EffectRuns] (mount None defaultScraperConfig)))
              0 (mkClosure 1 0 true)
              (repeat (mkCharity [] [] [] None []) 1001) true
              eq_refl
              ltac:(discriminate)
              ltac:(rewrite repeat_length; cbn [cl_processedCount]; lia))
    as (w' & Hh & Hc & Hr & _ & Hm & Hl & _).
  exists w'. split; [vm_compute; reflexivity|]. split; [exact Hh|].
  repeat split; assumption.
Defined.

(** C7. A settled fetch that brings an empty page sets [hasMorePages] to
    false and halts with the scraping-complete line, whatever the [hasMore]
    flag of the answer, and leaves the records, the tally, the page number
    and [processedCount] as they were; no timer is set. *)
Theorem empty_page_completes (w : World) (i : nat) (cl : Closure) (hasMore : bool) :
  awaiting w !! i = Some cl ->
  exists w',
    handle (FetchSettles i (Resolved [] hasMore)) w = Some w' /\
    hasMorePages (app w') = false /\
    isRunning (app w') = false /\ isProcessing (app w') = false /\
    log (app w') = log (app w) ++ [NoMoreItemsFound] /\
    charityData (app w') = charityData (app w) /\
    states (app w') = states (app w) /\
    currentPage (app w') = currentPage (app w) /\
    processedCount (app w') = processedCount (app w) /\
    timers w' = timers w /\ awaiting w' = delete i (awaiting w).
Proof.
  intros Hi. eexists. split.
  - apply (handle_fetchSettles _ _ _ _ Hi).
  - rewrite app_persist, timers_persist, awaiting_persist. simpl. repeat split.
Qed.

Lemma empty_page_completes_witness :
  exists w w',
    run [Start; EffectRuns] (mount None defaultScraperConfig) = Some w /\
    handle (FetchSettles 0 (Resolved [] true)) w = Some w' /\
    hasMorePages (app w') = false /\ isRunning (app w') = false /\
    currentPage (app w') = 1 /\ processedCount (app w') = 0.
Proof.
  destruct (empty_page_completes
              (default (mount None defaultScraperConfig)
                 (run [Start; EffectRuns] (mount None defaultScraperConfig)))
              0 (mkClosure 1 0 true) true eq_refl)
    as (w' & Hh & Hm & Hr & _ & _ & _ & _ & Hp & Hc & _).
  exists (default (mount None defaultScraperConfig)
            (run [Start; EffectRuns] (mount None defaultScraperConfig))), w'.
  split; [vm_compute; reflexivity|]. split; [exact Hh|].
  repeat split; assumption.
Defined.

(** C8. A confirmed reset, from any state: no records, the empty tally,
    page 1, count 0, not running, not processing, [hasMorePages] true, a log
    that holds the reset line alone, and no item left in the storage. *)
Theorem reset_clears_everything (w : World) :
  exists w',
    handle (Reset true) w = Some w' /\
    charityData (app w') = [] /\ states (app w') = ∅ /\
    currentPage (app w') = 1 /\ processedCount (app w') = 0 /\
    isRunning (app w') = false /\ isProcessing (app w') = false /\
    hasMorePages (app w') = true /\
    log (app w') = [ScraperReset] /\
    localStorage w' = None.
Proof. eexists. split; [reflexivity|]. simpl. repeat split. Qed.

(** *** Starting *)

Lemma begin_blocked (cl : Closure) (s : AppState) :
  cl_isRunning cl = false \/ 1000 <= cl_processedCount cl ->
  processNextPage_begin cl s = (setIsProcessing false s, None).
Proof.
  intros H. unfold processNextPage_begin.
  destruct (cl_isRunning cl); [|reflexivity].
  destruct H as [H|H]; [discriminate|].
  destruct (Nat.leb_spec 1000 (cl_processedCount cl)); [reflexivity | lia].
Qed.

Lemma begin_passes (cl : Closure) (s : AppState) :
  cl_isRunning cl = true -> cl_processedCount cl < 1000 ->
  processNextPage_begin cl s =
  (addLogMessage (ProcessingPage (cl_currentPage cl)) (setIsProcessing true s),
   Some (cl_currentPage cl)).
Proof.
  intros Hr Hn. unfold processNextPage_begin. rewrite Hr.
  destruct (Nat.leb_spec 1000 (cl_processedCount cl)); [lia | reflexivity].
Qed.

Lemma start_guard (s : AppState) :
  hasMorePages s = true \/ currentPage s <= 1 ->
  negb (hasMorePages s) && (1 <? currentPage s) = false.
Proof.
  intros [-> | H]; [reflexivity|].
  destruct (Nat.ltb_spec 1 (currentPage s)); [lia | apply andb_false_r].
Qed.

(** An accepted click on Start in a halted component, followed by the
    monitoring effect: below the limit the effect starts the fetch of the
    current page; at the limit nothing is fetched. *)
Lemma startScraping_halted (w : World) :
  isRunning (app w) = false ->
  hasMorePages (app w) = true \/ currentPage (app w) <= 1 ->
  exists s,
    startScraping w =
      mkWorld s (localStorage w)
        {| cfg_sourceUrl := sourceUrl (app w);
           selectors := selectors (scraperConfig (app w)) |}
        (awaiting w) (timers w) /\
    isRunning s = true /\ isProcessing s = false /\ core s = core (app w).
Proof.
  intros Hrun Hguard. unfold startScraping. rewrite (start_guard _ Hguard).
  rewrite begin_blocked by (left; exact Hrun).
  eexists. split; [reflexivity|]. repeat split.
Qed.

Lemma start_then_effect (w : World) :
  isRunning (app w) = false ->
  hasMorePages (app w) = true \/ currentPage (app w) <= 1 ->
  exists w',
    run [Start; EffectRuns] w = Some w' /\
    isRunning (app w') = true /\ core (app w') = core (app w) /\
    timers w' = timers w /\
    awaiting w' =
      (if processedCount (app w) <? 1000
       then awaiting w ++ [mkClosure (currentPage (app w)) (processedCount (app w)) true]
       else awaiting w) /\
    isProcessing (app w') = (processedCount (app w) <? 1000).
Proof.
  intros Hrun Hguard.
  destruct (startScraping_halted w Hrun Hguard) as (s & Hs & Hr & Hp & Hc).
  assert (Hcore := Hc). unfold core in Hc. injection Hc as Hpage Hcount _ _ _.
  eexists. split; [reflexivity|].
  cbn [run handle option_map].
  rewrite app_persist, timers_persist, awaiting_persist.
  unfold monitorEffect. rewrite !app_persist, Hs. cbn [app]. rewrite Hr, Hp.
  cbn [andb negb]. rewrite app_invoke, timers_invoke, awaiting_invoke.
  rewrite timers_persist, awaiting_persist. cbn [timers awaiting].
  unfold capture. rewrite Hr, Hpage, Hcount.
  destruct (Nat.ltb_spec (processedCount (app w)) 1000) as [Hlt|Hge].
  - rewrite begin_passes by (try reflexivity; exact Hlt).
    cbn [fst snd]. split; [exact Hr|]. split; [exact Hcore|]. repeat split.
  - rewrite begin_blocked by (right; exact Hge).
    cbn [fst snd]. split; [exact Hr|]. split; [exact Hcore|]. repeat split.
Qed.

Lemma handle_quiet (e : Event) (w w' : World) :
  1000 <= processedCount (app w) -> awaiting w = [] -> timers w = [] ->
  e <> Reset true -> handle e w = Some w' ->
  awaiting w' = [] /\ timers w' = [] /\ core (app w') = core (app w).
Proof.
  intros Hn Ha Ht Hne. unfold handle.
  destruct e as [| |confirmed| |i|i outcome]; cbn [option_map].
  - intros [= <-]. rewrite awaiting_persist, timers_persist, app_persist.
    split; [|split; [|apply startScraping_core]]; unfold startScraping;
      destruct (negb (hasMorePages (app w)) && (1 <? currentPage (app w)));
      try assumption;
      rewrite begin_blocked by (right; exact Hn); assumption.
  - intros [= <-]. now rewrite awaiting_persist, timers_persist, app_persist.
  - destruct confirmed; [contradiction|]. intros [= <-].
    now rewrite awaiting_persist, timers_persist, app_persist.
  - intros [= <-]. rewrite awaiting_persist, timers_persist, app_persist.
    split; [|split; [|apply monitorEffect_core]]; unfold monitorEffect;
      destruct (isRunning (app w) && negb (isProcessing (app w)));
      try assumption;
      rewrite begin_blocked by (right; exact Hn); assumption.
  - unfold timerFires. rewrite Ht. discriminate.
  - unfold fetchSettles. rewrite Ha. discriminate.
Qed.

(** C2: what the code does.  Once [processedCount] is 1000, with no fetch
    in flight and no timer set, a click on Start is accepted ([isRunning]
    becomes true) but neither it nor the monitoring effect starts a fetch;
    and no sequence of events without a confirmed reset ever starts one: the
    page number, the count and the records stay as they are. *)
Theorem start_at_batch_limit_fetches_nothing (w : World) :
  processedCount (app w) = 1000 -> hasMorePages (app w) = true ->
  isRunning (app w) = false -> awaiting w = [] -> timers w = [] ->
  (exists w1,
     run [Start; EffectRuns] w = Some w1 /\
     isRunning (app w1) = true /\ isProcessing (app w1) = false /\
     awaiting w1 = [] /\ timers w1 = []) /\
  (forall events w',
     ~ In (Reset true) events -> run events w = Some w' ->
     awaiting w' = [] /\ timers w' = [] /\
     currentPage (app w') = currentPage (app w) /\
     charityData (app w') = charityData (app w) /\
     processedCount (app w') = 1000).
Proof.
  intros Hn Hmore Hrun Ha Ht. split.
  - destruct (start_then_effect w Hrun (or_introl Hmore))
      as (w1 & Hr & Hrun1 & _ & Ht1 & Ha1 & Hp1).
    exists w1. rewrite Hn, Nat.ltb_irrefl in Ha1, Hp1.
    repeat split; try assumption; congruence.
  - intros events. rewrite <- Hn.
    assert (Hge : 1000 <= processedCount (app w)) by lia.
    clear Hn Hmore Hrun. revert w Hge Ha Ht.
    induction events as [|e events IH]; intros w Hge Ha Ht w' Hno; simpl.
    + intros [= <-]. repeat split; assumption.
    + destruct (handle e w) as [w1|] eqn:He; [|discriminate]. intros Hr.
      assert (Hne : e <> Reset true) by (intros ->; apply Hno; now left).
      destruct (handle_quiet e w w1 Hge Ha Ht Hne He) as (Ha1 & Ht1 & Hc).
      unfold core in Hc. injection Hc as Hp Hc Hs Hd Hm.
      destruct (IH w1 ltac:(lia) Ha1 Ht1 w' ltac:(intros H; apply Hno; now right) Hr)
        as (? & ? & ? & ? & ?).
      repeat split; congruence.
Qed.

Lemma start_at_batch_limit_fetches_nothing_witness :
  exists w w1,
    run [Start; EffectRuns;
         FetchSettles 0 (Resolved (repeat (mkCharity [] [] [] None []) 1000) true)]
      (mount None defaultScraperConfig) = Some w /\
    processedCount (app w) = 1000 /\ hasMorePages (app w) = true /\
    run [Start; EffectRuns] w = Some w1 /\
    isRunning (app w1) = true /\ awaiting w1 = [] /\ timers w1 = [].
Proof.
  pose (w := default (mount None defaultScraperConfig)
               (run [Start; EffectRuns;
                     FetchSettles 0
                       (Resolved (repeat (mkCharity [] [] [] None []) 1000) true)]
                  (mount None defaultScraperConfig))).
  assert (Hn : processedCount (app w) = 1000) by (vm_compute; reflexivity).
  assert (Hm : hasMorePages (app w) = true) by (vm_compute; reflexivity).
  assert (Hr : isRunning (app w) = false) by (vm_compute; reflexivity).
  assert (Ha : awaiting w = []) by (vm_compute; reflexivity).
  assert (Ht : timers w = []) by (vm_compute; reflexivity).
  destruct (proj1 (start_at_batch_limit_fetches_nothing w Hn Hm Hr Ha Ht))
    as (w1 & Hrun1 & Hr1 & _ & Ha1 & Ht1).
  exists w, w1. split; [vm_compute; reflexivity|].
  split; [exact Hn|]. split; [exact Hm|]. split; [exact Hrun1|].
  split; [exact Hr1|]. split; [exact Ha1|exact Ht1].
Defined.

(** *** Failing fetches *)





(** *** The tally and the record store *)

Lemma recordsOf_state (r : list N) (data : list Charity) :
  Forall (fun c => state c <> []) data ->
  recordsOf r data = length (filter (fun c => state c = r) data).
Proof.
  unfold recordsOf. induction 1 as [|c data Hc _ IH]; [reflexivity|].
  rewrite !filter_cons, (regionOf_state c Hc).
  destruct (decide (state c = r)); simpl; now rewrite IH.
Qed.

(** The keys of given records, checked by computation. *)
Lemma ownKeys_checked (data : list Charity) :
  forallb (fun c => negb (inheritedName (regionOf c))) data = true ->
  Forall ownKey data.
Proof.
  rewrite forallb_forall. intros H. apply Forall_forall. intros c Hc.
  apply list_elem_of_In in Hc. apply negb_true_iff, H, Hc.
Qed.

(** A [state] that the code produces is no inherited key: it
    begins with a capital letter, and no name of [Object.prototype] does. *)
Lemma producedState_ownKey (c : Charity) : producedState (state c) -> ownKey c.
Proof.
  assert (Hhead : forall c0 rest, state c = c0 :: rest -> isUpper c0 = true -> ownKey c).
  { intros c0 rest Hs Hup. unfold ownKey, regionOf. rewrite Hs.
    destruct (inheritedName (c0 :: rest)) eqn:Hin; [|reflexivity].
    apply JSFacts.inheritedName_head in Hin.
    destruct Hin as (c1 & rest1 & [= <- <-] & Hlow). congruence. }
  assert (Hlist : forall l,
             forallb (fun s => match s with
                               | c0 :: _ => isUpper c0
                               | [] => false
                               end) l = true ->
             In (state c) l -> ownKey c).
  { intros l Hall Hin. rewrite forallb_forall in Hall. specialize (Hall _ Hin).
    destruct (state c) as [|c0 rest] eqn:Hs; [discriminate|].
    now apply (Hhead c0 rest). }
  intros [[addr Hs] | [Hin | Hin]].
  - destruct (RegionDerivation.extractState_head addr) as (c0 & rest & Heq & Hup).
    apply (Hhead c0 rest); [congruence | exact Hup].
  - apply (Hlist statesList); [vm_compute; reflexivity | exact Hin].
  - apply (Hlist (map state realCharityData)); [vm_compute; reflexivity | exact Hin].
Qed.

(** C6. In every state the component can reach (mounted on a storage that
    is empty, unreadable or holds an array of records, then any sequence of
    clicks on Start, Pause and Reset, runs of the monitoring effect, timers
    and settled fetches) in which no stored
    record is counted under a name of [Object.prototype], every entry of the
    tally is a number, the counts add up to the number of stored records,
    and the count of each region is the number of stored records counted
    under it: those whose [state] is that region, with the empty [state]
    read as ["Unknown"], as the tally code reads it.  Every [state] that the
    code produces (a derived region, a code of [statesList] or of
    [realCharityData]) is such a key.  The storage holds the records alone,
    and on mounting the tally is counted afresh from the restored records. *)
Theorem tally_consistency :
  (forall w, reachable w -> Forall ownKey (charityData (app w)) ->
     numeric (states (app w)) /\
     tallyTotal (states (app w)) = length (charityData (app w)) /\
     (forall region,
        tallyOf (states (app w)) region = recordsOf region (charityData (app w))) /\
     (Forall (fun c => state c <> []) (charityData (app w)) ->
      forall region,
        tallyOf (states (app w)) region =
        length (filter (fun c => state c = region) (charityData (app w))))) /\
  (forall c, producedState (state c) -> ownKey c) /\
  (forall data config,
     charityData (app (mount (Some (Snapshot data)) config)) = data /\
     states (app (mount (Some (Snapshot data)) config)) = countStates ∅ data).
Proof.
  split; [|split].
  - intros w Hw Hall.
    destruct (reachable_tallyConsistent w Hw Hall) as (Hnum & Ht & Hr).
    split; [exact Hnum|]. split; [exact Ht|]. split; [exact Hr|].
    intros Hne region. now rewrite Hr, recordsOf_state.
  - exact producedState_ownKey.
  - intros data config. unfold mount. rewrite app_persist. split; reflexivity.
Qed.

Lemma tally_consistency_witness :
  exists w,
    run [Start; EffectRuns; FetchSettles 0 (Resolved realCharityData true)]
      (mount (Some (Snapshot realCharityData)) defaultScraperConfig) = Some w /\
    tallyTotal (states (app w)) = 20 /\
    tallyOf (states (app w)) (str "DC") = 4 /\
    tallyOf (states (app w)) (str "WV") = 0.
Proof.
  pose (w := default (mount None defaultScraperConfig)
               (run [Start; EffectRuns; FetchSettles 0 (Resolved realCharityData true)]
                  (mount (Some (Snapshot realCharityData)) defaultScraperConfig))).
  assert (Hrun : run [Start; EffectRuns; FetchSettles 0 (Resolved realCharityData true)]
                   (mount (Some (Snapshot realCharityData)) defaultScraperConfig)
                 = Some w) by (vm_compute; reflexivity).
  assert (Hw : reachable w)
    by (exists (Some (Snapshot realCharityData)), defaultScraperConfig,
          [Start; EffectRuns; FetchSettles 0 (Resolved realCharityData true)];
        exact Hrun).
  assert (Hall : Forall ownKey (charityData (app w)))
    by (apply ownKeys_checked; vm_compute; reflexivity).
  destruct (proj1 tally_consistency w Hw Hall) as (_ & Ht & Hr & _).
  assert (Hlen : length (charityData (app w)) = 20) by (vm_compute; reflexivity).
  assert (Hdc : recordsOf (str "DC") (charityData (app w)) = 4)
    by (vm_compute; reflexivity).
  assert (Hwv : recordsOf (str "WV") (charityData (app w)) = 0)
    by (vm_compute; reflexivity).
  exists w. split; [exact Hrun|].
  split; [exact (eq_trans Ht Hlen)|].
  split; [exact (eq_trans (Hr (str "DC")) Hdc) | exact (eq_trans (Hr (str "WV")) Hwv)].
Defined.

(** C9. The record store can hold more than 1000 records while
    [processedCount] is exactly 1000: a first page of 1001 records is such a
    run.  In general, when a settled fetch brings a non-empty page that takes
    the count of its call past 1000, all the records of the page are appended
    to the store and counted in the tally, and the counter alone is cut down
    to 1000. *)
Theorem store_exceeds_batch_limit :
  (exists events w,
     run events (mount None defaultScraperConfig) = Some w /\
     1000 < length (charityData (app w)) /\
     tallyTotal (states (app w)) = length (charityData (app w)) /\
     processedCount (app w) = 1000) /\
  (forall w i cl charities hasMore,
     awaiting w !! i = Some cl -> charities <> [] ->
     1000 < cl_processedCount cl + length charities ->
     exists w',
       handle (FetchSettles i (Resolved charities hasMore)) w = Some w' /\
       charityData (app w') = charityData (app w) ++ charities /\
       states (app w') = countStates (states (app w)) charities /\
       processedCount (app w') = 1000).
Proof.
  split.
  - pose (events := [Start; EffectRuns;
                     FetchSettles 0
                       (Resolved (repeat (mkCharity (str "A") [] [] None (str "NY")) 1001)
                          true)]).
    pose (w := default (mount None defaultScraperConfig)
                 (run events (mount None defaultScraperConfig))).
    assert (Hrun : run events (mount None defaultScraperConfig) = Some w)
      by (vm_compute; reflexivity).
    exists events, w. split; [exact Hrun|].
    split; [apply Nat.ltb_lt; vm_compute; reflexivity|].
    split; [|vm_compute; reflexivity].
    assert (Hw : reachable w)
      by (exists None, defaultScraperConfig, events; exact Hrun).
    assert (Hall : Forall ownKey (charityData (app w)))
      by (apply ownKeys_checked; vm_compute; reflexivity).
    destruct (reachable_tallyConsistent w Hw Hall) as (_ & Ht & _). exact Ht.
  - intros w i cl charities hasMore Hi Hne Hn. eexists. split.
    + apply (handle_fetchSettles _ _ _ _ Hi).
    + rewrite app_persist.
      rewrite (resume_batch_full _ _ _ _ Hne) by lia. cbn [fst app].
      split; [reflexivity|]. split; reflexivity.
Qed.

Lemma store_exceeds_batch_limit_witness :
  exists w w',
    run [Start; EffectRuns] (mount None defaultScraperConfig) = Some w /\
    handle (FetchSettles 0
              (Resolved (repeat (mkCharity (str "A") [] [] None (str "NY")) 1001) true))
      w = Some w' /\
    length (charityData (app w')) = 1001 /\ processedCount (app w') = 1000.
Proof.
  pose (w := default (mount None defaultScraperConfig)
               (run [Start; EffectRuns] (mount None defaultScraperConfig))).
  assert (Hi : awaiting w !! 0 = Some (mkClosure 1 0 true))
    by (vm_compute; reflexivity).
  assert (Hne : repeat (mkCharity (str "A") [] [] None (str "NY")) 1001 <> [])
    by discriminate.
  assert (Hn : 1000 < cl_processedCount (mkClosure 1 0 true)
                      + length (repeat (mkCharity (str "A") [] [] None (str "NY")) 1001))
    by (rewrite repeat_length; cbn [cl_processedCount]; lia).
  assert (Hd : length (charityData (app w)
                       ++ repeat (mkCharity (str "A") [] [] None (str "NY")) 1001)
               = 1001) by (vm_compute; reflexivity).
  destruct (proj2 store_exceeds_batch_limit w 0 (mkClosure 1 0 true)
              (repeat (mkCharity (str "A") [] [] None (str "NY")) 1001) true Hi Hne Hn)
    as (w' & Hh & Hc & _ & Hp).
  exists w, w'. split; [vm_compute; reflexivity|]. split; [exact Hh|].
  split; [exact (eq_trans (f_equal (@length Charity) Hc) Hd) | exact Hp].
Defined.

(** *** The cursor and the record store along a run *)

Lemma handle_page (e : Event) (w w' : World) :
  e <> Reset true -> handle e w = Some w' ->
  currentPage (app w') = currentPage (app w) + length (mergedPages [e]) /\
  charityData (app w') = charityData (app w) ++ concat (mergedPages [e]).
Proof.
  assert (Hcore : forall s s' : AppState, core s' = core s ->
            currentPage s' = currentPage s + 0 /\
            charityData s' = charityData s ++ [])
    by (unfold core; intros s s' [= -> _ _ -> _]; rewrite app_nil_r; auto).
  intros Hne. unfold handle.
  destruct e as [| |confirmed| |i|i outcome]; cbn [option_map mergedPages length concat].
  - intros [= <-]. rewrite app_persist. apply Hcore, startScraping_core.
  - intros [= <-]. rewrite app_persist. now apply Hcore.
  - destruct confirmed; [contradiction|]. intros [= <-]. rewrite app_persist.
    now apply Hcore.
  - intros [= <-]. rewrite app_persist. apply Hcore, monitorEffect_core.
  - destruct (timerFires i w) as [w1|] eqn:Ht; [|discriminate].
    intros [= <-]. rewrite app_persist. eapply Hcore, timerFires_core, Ht.
  - unfold fetchSettles. destruct (awaiting w !! i) as [cl|]; [|discriminate].
    pose proof (resume_core cl outcome (app w)) as Hr.
    destruct (processNextPage_resume cl outcome (app w)) as [s again].
    cbn [fst] in Hr. intros [= <-]. rewrite app_persist. cbn [app].
    destruct outcome as [[|c charities] hasMore | message].
    + unfold core in Hr. injection Hr as -> _ _ -> _.
      cbn [mergedPages length concat]. rewrite app_nil_r. auto.
    + destruct Hr as (-> & _ & _ & ->). cbn [mergedPages length concat].
      rewrite app_nil_r. auto.
    + cbn [mergedPages length concat]. now apply Hcore.
Qed.

Lemma mergedPages_cons (e : Event) (events : list Event) :
  mergedPages (e :: events) = mergedPages [e] ++ mergedPages events.
Proof.
  destruct e as [| |confirmed| |i|i [[|c charities] hasMore | message]]; reflexivity.
Qed.

(** Cursor and records along a run.  As long as no reset is confirmed, the
    page number has grown by the number of non-empty pages merged, and the
    record store is what it was followed by those pages in the order in
    which their fetches settled; after mounting, the page number is 1 plus
    the number of merged pages. *)
Theorem cursor_counts_merged_pages :
  (forall events w w',
     ~ In (Reset true) events -> run events w = Some w' ->
     currentPage (app w') = currentPage (app w) + length (mergedPages events) /\
     charityData (app w') = charityData (app w) ++ concat (mergedPages events)) /\
  (forall item config events w',
     ~ In (Reset true) events -> run events (mount item config) = Some w' ->
     currentPage (app w') = 1 + length (mergedPages events)).
Proof.
  assert (H : forall events w w',
     ~ In (Reset true) events -> run events w = Some w' ->
     currentPage (app w') = currentPage (app w) + length (mergedPages events) /\
     charityData (app w') = charityData (app w) ++ concat (mergedPages events)).
  { induction events as [|e events IH]; intros w w' Hno; cbn [run].
    - intros [= <-]. cbn. rewrite app_nil_r. auto.
    - destruct (handle e w) as [w1|] eqn:He; [|discriminate]. intros Hr.
      destruct (handle_page e w w1) as [Hp Hd]; [|exact He|].
      { intros ->. apply Hno. now left. }
      destruct (IH w1 w') as [Hp' Hd']; [|exact Hr|].
      { intros Hin. apply Hno. now right. }
      rewrite mergedPages_cons, length_app, concat_app, Hp', Hd', Hp, Hd.
      rewrite <- app_assoc. split; [lia | reflexivity]. }
  split; [exact H|].
  intros item config events w' Hno Hr. destruct (H _ _ _ Hno Hr) as [-> _].
  unfold mount. rewrite app_persist. unfold restore. cbn [localStorage app].
  now destruct item as [[d|]|].
Qed.

Lemma cursor_counts_merged_pages_witness :
  exists w,
    run [Start; EffectRuns; FetchSettles 0 (Resolved realCharityData true);
         TimerFires 0; FetchSettles 0 (Resolved [] true)]
      (mount (Some (Snapshot realCharityData)) defaultScraperConfig) = Some w /\
    currentPage (app w) = 2 /\
    charityData (app w) = realCharityData ++ realCharityData.
Proof.
  pose (events := [Start; EffectRuns; FetchSettles 0 (Resolved realCharityData true);
                   TimerFires 0; FetchSettles 0 (Resolved [] true)]).
  pose (w0 := mount (Some (Snapshot realCharityData)) defaultScraperConfig).
  pose (w := default w0 (run events w0)).
  assert (Hrun : run events w0 = Some w) by (vm_compute; reflexivity).
  assert (Hno : ~ In (Reset true) events) by (cbn; intuition discriminate).
  destruct (proj1 cursor_counts_merged_pages events w0 w Hno Hrun) as [Hp Hd].
  exists w. split; [exact Hrun|]. split.
  - rewrite Hp. vm_compute. reflexivity.
  - rewrite Hd. vm_compute. reflexivity.
Defined.

Lemma startScraping_updates_module (w : World) :
  hasMorePages (app w) = true \/ currentPage (app w) <= 1 ->
  moduleConfig (startScraping w) =
  updateScraperConfig (moduleConfig w)
    (wholeConfig {| cfg_sourceUrl := sourceUrl (app w);
                    selectors := selectors (scraperConfig (app w)) |}) /\
  scraperConfig (app (startScraping w)) = moduleConfig (startScraping w).
Proof.
  intros Hguard. unfold startScraping. rewrite (start_guard _ Hguard).
  destruct (processNextPage_begin (capture (app w)) _) as [s [p|]] eqn:Hb;
    cbn [invoke moduleConfig app]; (split; [reflexivity|]);
    pose proof (f_equal fst Hb) as Hs; cbn [fst] in Hs; subst s;
    unfold processNextPage_begin;
    destruct (negb (cl_isRunning (capture (app w)))
              || (1000 <=? cl_processedCount (capture (app w)))); reflexivity.
Qed.



(** *** An exhausted source *)

Lemma handle_exhausted (e : Event) (w w' : World) :
  hasMorePages (app w) = false -> 1 < currentPage (app w) ->
  isRunning (app w) = false -> awaiting w = [] -> timers w = [] ->
  e <> Reset true -> handle e w = Some w' ->
  core (app w') = core (app w) /\ isRunning (app w') = false /\
  awaiting w' = [] /\ timers w' = [].
Proof.
  intros Hm Hp Hr Ha Ht Hne. unfold handle.
  destruct e as [| |confirmed| |i|i outcome]; cbn [option_map].
  - intros [= <-]. rewrite awaiting_persist, timers_persist, app_persist.
    unfold startScraping. rewrite Hm.
    destruct (Nat.ltb_spec 1 (currentPage (app w))); [|lia].
    cbn [negb andb withApp app awaiting timers]. auto.
  - intros [= <-]. rewrite awaiting_persist, timers_persist, app_persist. auto.
  - destruct confirmed; [contradiction|]. intros [= <-].
    rewrite awaiting_persist, timers_persist, app_persist. auto.
  - intros [= <-]. rewrite awaiting_persist, timers_persist, app_persist.
    unfold monitorEffect. rewrite Hr. cbn [andb]. auto.
  - unfold timerFires. rewrite Ht. discriminate.
  - unfold fetchSettles. rewrite Ha. discriminate.
Qed.

(** Once the source is exhausted past page 1 and the controller has halted
    with nothing in flight, every click on Start is turned down and nothing
    is fetched any more: only a confirmed reset leads out of this state. *)
Theorem exhausted_needs_reset (w : World) :
  hasMorePages (app w) = false -> 1 < currentPage (app w) ->
  isRunning (app w) = false -> awaiting w = [] -> timers w = [] ->
  forall events w',
    ~ In (Reset true) events -> run events w = Some w' ->
    isRunning (app w') = false /\ awaiting w' = [] /\ timers w' = [] /\
    currentPage (app w') = currentPage (app w) /\
    processedCount (app w') = processedCount (app w) /\
    charityData (app w') = charityData (app w) /\
    hasMorePages (app w') = false.
Proof.
  intros Hm Hp Hr Ha Ht events. revert w Hm Hp Hr Ha Ht.
  induction events as [|e events IH]; intros w Hm Hp Hr Ha Ht w' Hno; cbn [run].
  - intros [= <-]. repeat split; assumption.
  - destruct (handle e w) as [w1|] eqn:He; [|discriminate]. intros Hrun.
    destruct (handle_exhausted e w w1 Hm Hp Hr Ha Ht) as (Hc & Hr1 & Ha1 & Ht1);
      [intros ->; apply Hno; now left | exact He |].
    unfold core in Hc. injection Hc as Hpage Hcount _ Hdata Hmore.
    destruct (IH w1) with (w' := w') as (? & ? & ? & ? & ? & ? & ?);
      try congruence; try lia.
    { intros Hin. apply Hno. now right. }
    repeat split; congruence.
Qed.

Lemma exhausted_needs_reset_witness :
  exists w w',
    run [Start; EffectRuns; FetchSettles 0 (Resolved realCharityData false)]
      (mount None defaultScraperConfig) = Some w /\
    run [Start; EffectRuns; Pause; Start; EffectRuns] w = Some w' /\
    isRunning (app w') = false /\ awaiting w' = [] /\ currentPage (app w') = 2.
Proof.
  pose (w := default (mount None defaultScraperConfig)
               (run [Start; EffectRuns; FetchSettles 0 (Resolved realCharityData false)]
                  (mount None defaultScraperConfig))).
  pose (w' := default w (run [Start; EffectRuns; Pause; Start; EffectRuns] w)).
  assert (Hrun : run [Start; EffectRuns; Pause; Start; EffectRuns] w = Some w')
    by (vm_compute; reflexivity).
  assert (Hp : 1 < currentPage (app w)) by (apply Nat.ltb_lt; vm_compute; reflexivity).
  assert (Hpage : currentPage (app w) = 2) by (vm_compute; reflexivity).
  destruct (exhausted_needs_reset w
              ltac:(vm_compute; reflexivity) Hp
              ltac:(vm_compute; reflexivity)
              ltac:(vm_compute; reflexivity)
              ltac:(vm_compute; reflexivity)
              [Start; EffectRuns; Pause; Start; EffectRuns] w')
    as (Hr & Ha & _ & Hc & _).
  - intros H. cbn in H. intuition discriminate.
  - exact Hrun.
  - exists w, w'. split; [vm_compute; reflexivity|]. split; [exact Hrun|].
    split; [exact Hr|]. split; [exact Ha|]. exact (eq_trans Hc Hpage).
Defined.

(** *** The calls in flight *)

Lemma invoke_pending (cl : Closure) (s : AppState) (w : World) :
  pendingOK w ->
  pendingOK (invoke cl (processNextPage_begin cl s) w).
Proof.
  intros [Ha Ht]. unfold pendingOK.
  rewrite awaiting_invoke, timers_invoke, begin_fetches. split; [|exact Ht].
  destruct (cl_isRunning cl) eqn:Hr; [|exact Ha].
  destruct (Nat.ltb_spec (cl_processedCount cl) 1000); [|exact Ha].
  cbn [andb]. apply Forall_app. split; [exact Ha|].
  apply List.Forall_cons; [now split | apply List.Forall_nil].
Qed.

Lemma pendingOK_persist (w : World) : pendingOK w -> pendingOK (persist w).
Proof. unfold pendingOK. now rewrite awaiting_persist, timers_persist. Qed.

Lemma Forall_lookup_delete {A} (P : A -> Prop) (l : list A) (i : nat) (x : A) :
  Forall P l -> l !! i = Some x -> P x /\ Forall P (delete i l).
Proof.
  intros Hl Hi. split; [eapply Forall_lookup_1; eassumption | now apply Forall_delete].
Qed.

Lemma handle_pending (e : Event) (w w' : World) :
  pendingOK w -> handle e w = Some w' -> pendingOK w'.
Proof.
  intros Hw. unfold handle.
  destruct e as [| |confirmed| |i|i outcome]; cbn [option_map].
  - intros [= <-]. apply pendingOK_persist. unfold startScraping.
    destruct (negb (hasMorePages (app w)) && (1 <? currentPage (app w)));
      [exact Hw|].
    now apply invoke_pending.
  - intros [= <-]. now apply pendingOK_persist.
  - intros [= <-]. apply pendingOK_persist. now destruct confirmed.
  - intros [= <-]. apply pendingOK_persist. unfold monitorEffect.
    destruct (isRunning (app w) && negb (isProcessing (app w))); [|exact Hw].
    now apply invoke_pending.
  - unfold timerFires. destruct (timers w !! i) as [cl|] eqn:Hi; [|discriminate].
    intros [= <-]. apply pendingOK_persist. destruct Hw as [Ha Ht].
    destruct (Forall_lookup_delete _ _ _ _ Ht Hi) as [Hcl Hd].
    unfold timeoutCallback. unfold pendingOK.
    rewrite awaiting_invoke, timers_invoke, begin_fetches.
    pose proof Hcl as [Hr Hlt]. rewrite Hr.
    destruct (Nat.ltb_spec (cl_processedCount cl) 1000); [|lia].
    cbn [andb awaiting timers]. split; [|exact Hd].
    apply Forall_app. split; [exact Ha|].
    apply List.Forall_cons; [exact Hcl | apply List.Forall_nil].
  - unfold fetchSettles. destruct (awaiting w !! i) as [cl|] eqn:Hi; [|discriminate].
    destruct (processNextPage_resume cl outcome (app w)) as [s again].
    intros [= <-]. apply pendingOK_persist. destruct Hw as [Ha Ht].
    destruct (Forall_lookup_delete _ _ _ _ Ha Hi) as [Hcl Hd].
    split; cbn [awaiting timers]; [exact Hd|].
    destruct again; [|exact Ht]. apply Forall_app. split; [exact Ht|].
    apply List.Forall_cons; [exact Hcl | apply List.Forall_nil].
Qed.

Lemma reachable_pending (w : World) : reachable w -> pendingOK w.
Proof.
  intros (item & config & events & Hrun).
  apply (run_invariant pendingOK) with (3 := Hrun).
  - intros e w1 w2. apply handle_pending.
  - unfold mount. apply pendingOK_persist. unfold restore. cbn [localStorage].
    destruct item as [[d|]|]; split; constructor.
Qed.

(** One round of the timer loop, with the updates of the timer callback
    applied as one batch.  A timer that fires calls the [processNextPage]
    that set it, with the page number, the count and the [isRunning] of the
    render that created that function: in every reachable state, paused or
    not, the call passes its guard and fetches its captured page again.
    When that fetch brings a non-empty page with more to come, and the
    captured count plus the size of the page stays below 1000, the page is
    merged, the page number grows by one, [processedCount] becomes the
    captured count plus the size of this page, [isRunning] is left as it is,
    and the same call is set on a timer again.  (A page that takes the
    captured count to 1000 or more halts the controller instead, see
    [resume_batch_full].) *)
Theorem timer_round (w : World) (i : nat) (cl : Closure) (charities : list Charity) :
  reachable w -> timers w !! i = Some cl ->
  charities <> [] -> cl_processedCount cl + length charities < 1000 ->
  exists w1 w2,
    handle (TimerFires i) w = Some w1 /\
    awaiting w1 = awaiting w ++ [cl] /\
    last (log (app w1)) = Some (ProcessingPage (cl_currentPage cl)) /\
    handle (FetchSettles (length (awaiting w)) (Resolved charities true)) w1 = Some w2 /\
    charityData (app w2) = charityData (app w) ++ charities /\
    currentPage (app w2) = currentPage (app w) + 1 /\
    processedCount (app w2) = cl_processedCount cl + length charities /\
    isRunning (app w2) = isRunning (app w) /\
    awaiting w2 = awaiting w /\
    timers w2 = delete i (timers w) ++ [cl].
Proof.
  intros Hw Hi Hne Hn.
  destruct (reachable_pending w Hw) as [_ Ht].
  destruct (Forall_lookup_1 _ _ _ _ Ht Hi) as [Hr Hlt].
  assert (H1 : handle (TimerFires i) w =
               Some (persist
                       (mkWorld
                          (addLogMessage (ProcessingPage (cl_currentPage cl))
                             (setIsProcessing true (setIsProcessing false (app w))))
                          (localStorage w) (moduleConfig w)
                          (awaiting w ++ [cl]) (delete i (timers w))))).
  { unfold handle, timerFires. rewrite Hi. unfold timeoutCallback.
    now rewrite (begin_passes _ _ Hr Hlt). }
  eexists. eexists. split; [exact H1|].
  rewrite awaiting_persist, app_persist. cbn [awaiting app].
  split; [reflexivity|].
  split; [unfold addLogMessage; cbn [log setLog]; apply last_snoc|].
  assert (Hl : awaiting
                 (persist
                    (mkWorld
                       (addLogMessage (ProcessingPage (cl_currentPage cl))
                          (setIsProcessing true (setIsProcessing false (app w))))
                       (localStorage w) (moduleConfig w)
                       (awaiting w ++ [cl]) (delete i (timers w))))
               !! length (awaiting w) = Some cl).
  { rewrite awaiting_persist. cbn [awaiting].
    apply list_lookup_middle. reflexivity. }
  split; [apply (handle_fetchSettles _ _ _ _ Hl)|].
  rewrite !app_persist, !awaiting_persist, !timers_persist.
  rewrite (resume_continues _ _ _ Hne Hn). cbn [fst snd app awaiting timers].
  repeat (split; [reflexivity|]).
  split; [|reflexivity].
  rewrite delete_middle. apply app_nil_r.
Qed.

Lemma timer_round_witness :
  exists w w1 w2,
    run [Start; EffectRuns; FetchSettles 0 (Resolved realCharityData true); Pause]
      (mount None defaultScraperConfig) = Some w /\
    isRunning (app w) = false /\ processedCount (app w) = 10 /\
    handle (TimerFires 0) w = Some w1 /\
    handle (FetchSettles 0 (Resolved (firstn 3 realCharityData) true)) w1 = Some w2 /\
    length (charityData (app w2)) = 13 /\ currentPage (app w2) = 3 /\
    processedCount (app w2) = 3 /\ timers w2 = [mkClosure 1 0 true].
Proof.
  pose (events := [Start; EffectRuns; FetchSettles 0 (Resolved realCharityData true);
                   Pause]).
  pose (w := default (mount None defaultScraperConfig)
               (run events (mount None defaultScraperConfig))).
  assert (Hrun : run events (mount None defaultScraperConfig) = Some w)
    by (vm_compute; reflexivity).
  assert (Hw : reachable w) by (exists None, defaultScraperConfig, events; exact Hrun).
  assert (Hi : timers w !! 0 = Some (mkClosure 1 0 true)) by (vm_compute; reflexivity).
  assert (Hne : firstn 3 realCharityData <> []) by (vm_compute; discriminate).
  assert (Hn : cl_processedCount (mkClosure 1 0 true)
               + length (firstn 3 realCharityData) < 1000)
    by (apply Nat.ltb_lt; vm_compute; reflexivity).
  destruct (timer_round w 0 (mkClosure 1 0 true) (firstn 3 realCharityData)
              Hw Hi Hne Hn)
    as (w1 & w2 & H1 & _ & _ & H2 & Hd & Hp & Hc & _ & _ & Ht).
  assert (Hlen : length (charityData (app w) ++ firstn 3 realCharityData) = 13)
    by (vm_compute; reflexivity).
  assert (Hpage : currentPage (app w) + 1 = 3) by (vm_compute; reflexivity).
  assert (Hcount : cl_processedCount (mkClosure 1 0 true)
                   + length (firstn 3 realCharityData) = 3)
    by (vm_compute; reflexivity).
  assert (Htm : delete 0 (timers w) ++ [mkClosure 1 0 true] = [mkClosure 1 0 true])
    by (vm_compute; reflexivity).
  assert (Hz : length (awaiting w) = 0) by (vm_compute; reflexivity).
  rewrite Hz in H2.
  exists w, w1, w2. split; [exact Hrun|].
  split; [vm_compute; reflexivity|]. split; [vm_compute; reflexivity|].
  split; [exact H1|]. split; [exact H2|].
  split; [exact (eq_trans (f_equal (@length Charity) Hd) Hlen)|].
  split; [exact (eq_trans Hp Hpage)|].
  split; [exact (eq_trans Hc Hcount)|]. exact (eq_trans Ht Htm).
Defined.

(** *** The saved records *)

Lemma reachable_persisted (w : World) : reachable w -> exists w0, w = persist w0.
Proof.
  intros (item & config & events & Hrun). revert Hrun.
  generalize (eq_refl (mount item config)). unfold mount at 2.
  generalize (restore (mkWorld (initialState config) item config [] [])) as w0.
  generalize (mount item config) as w1. clear.
  intros w1 w0 -> . revert w0.
  induction events as [|e events IH]; intros w0; cbn [run].
  - intros [= <-]. now exists w0.
  - unfold handle at 1.
    destruct (match e with
              | Start => Some (startScraping (persist w0))
              | Pause => Some (withApp (pauseScraping (app (persist w0))) (persist w0))
              | Reset confirmed => Some (resetScraper confirmed (persist w0))
              | EffectRuns => Some (monitorEffect (persist w0))
              | TimerFires i => timerFires i (persist w0)
              | FetchSettles i outcome => fetchSettles i outcome (persist w0)
              end) as [w2|]; cbn [option_map]; [apply IH | discriminate].
Qed.

(** Reloading the page.  In every reachable state with a non-empty record
    store, the storage item holds exactly the stored records, so mounting the
    component again on that storage restores the same records and the same
    tally; the page number, the count and [hasMorePages] are not saved: the
    new component starts at page 1 with count 0. *)
Theorem reload_restores_records (w : World) (config : ScraperConfig) :
  reachable w -> charityData (app w) <> [] ->
  localStorage w = Some (Snapshot (charityData (app w))) /\
  charityData (app (mount (localStorage w) config)) = charityData (app w) /\
  states (app (mount (localStorage w) config)) = states (app w) /\
  currentPage (app (mount (localStorage w) config)) = 1 /\
  processedCount (app (mount (localStorage w) config)) = 0 /\
  hasMorePages (app (mount (localStorage w) config)) = true /\
  isRunning (app (mount (localStorage w) config)) = false.
Proof.
  intros Hw Hne.
  assert (Hs : localStorage w = Some (Snapshot (charityData (app w)))).
  { destruct (reachable_persisted w Hw) as [w0 ->].
    rewrite app_persist in *. unfold persist.
    destruct (charityData (app w0)); [contradiction | reflexivity]. }
  split; [exact Hs|]. rewrite Hs. unfold mount. rewrite app_persist.
  unfold restore. cbn [localStorage app charityData states currentPage processedCount
                       hasMorePages isRunning withApp addLogMessage setLog
                       setStates setCharityData initialState].
  rewrite (reachable_tally_of_records w Hw). repeat split.
Qed.

Lemma reload_restores_records_witness :
  exists w,
    run [Start; EffectRuns; FetchSettles 0 (Resolved realCharityData true)]
      (mount None defaultScraperConfig) = Some w /\
    currentPage (app w) = 2 /\
    charityData (app (mount (localStorage w) defaultScraperConfig)) = realCharityData /\
    currentPage (app (mount (localStorage w) defaultScraperConfig)) = 1.
Proof.
  pose (events := [Start; EffectRuns; FetchSettles 0 (Resolved realCharityData true)]).
  pose (w := default (mount None defaultScraperConfig)
               (run events (mount None defaultScraperConfig))).
  assert (Hrun : run events (mount None defaultScraperConfig) = Some w)
    by (vm_compute; reflexivity).
  assert (Hw : reachable w) by (exists None, defaultScraperConfig, events; exact Hrun).
  assert (Hd : charityData (app w) = realCharityData) by (vm_compute; reflexivity).
  assert (Hne : charityData (app w) <> []) by (rewrite Hd; discriminate).
  destruct (reload_restores_records w defaultScraperConfig Hw Hne)
    as (_ & Hr & _ & Hp & _).
  exists w. split; [exact Hrun|]. split; [vm_compute; reflexivity|].
  split; [exact (eq_trans Hr Hd) | exact Hp].
Defined.


(** The entries of the tally.  In every reachable state in which no stored
    record is counted under a name of [Object.prototype], the tally has an
    entry for a region exactly when a stored record is counted under it, and
    the entry is the number of those records: there are no entries with
    count 0, and the number of categories shown is the number of distinct
    regions of the stored records. *)
Theorem tally_entries (w : World) (region : list N) :
  reachable w -> Forall ownKey (charityData (app w)) ->
  states (app w) !! region =
  match recordsOf region (charityData (app w)) with
  | 0 => None
  | S k => Some (Count (S k))
  end.
Proof.
  intros Hw Hall. rewrite (reachable_tally_of_records w Hw).
  destruct (countStates_ownKeys _ ∅ Hall numeric_empty) as (_ & _ & Hlook).
  rewrite Hlook. unfold tallyOf. rewrite lookup_empty. reflexivity.
Qed.

Lemma tally_entries_witness :
  exists w,
    run [Start; EffectRuns; FetchSettles 0 (Resolved realCharityData true)]
      (mount None defaultScraperConfig) = Some w /\
    states (app w) !! str "GA" = Some (Count 2) /\
    states (app w) !! str "WV" = None.
Proof.
  pose (events := [Start; EffectRuns; FetchSettles 0 (Resolved realCharityData true)]).
  pose (w := default (mount None defaultScraperConfig)
               (run events (mount None defaultScraperConfig))).
  assert (Hrun : run events (mount None defaultScraperConfig) = Some w)
    by (vm_compute; reflexivity).
  assert (Hw : reachable w) by (exists None, defaultScraperConfig, events; exact Hrun).
  assert (Hall : Forall ownKey (charityData (app w)))
    by (apply ownKeys_checked; vm_compute; reflexivity).
  assert (Hga : recordsOf (str "GA") (charityData (app w)) = 2)
    by (vm_compute; reflexivity).
  assert (Hwv : recordsOf (str "WV") (charityData (app w)) = 0)
    by (vm_compute; reflexivity).
  exists w. split; [exact Hrun|]. split.
  - rewrite (tally_entries w (str "GA") Hw Hall), Hga. reflexivity.
  - rewrite (tally_entries w (str "WV") Hw Hall), Hwv. reflexivity.
Defined.

End Controller.

(** ** The export *)

Module ExportFacts.
Import JSFacts Scraper App RegionDerivation.

Local Open Scope N_scope.

Lemma feed_Quoted_dquote fl rw rs :
  feed (mkReader Quoted fl rw rs) dquote = mkReader QuoteSeen fl rw rs.
Proof. reflexivity. Qed.

Lemma feed_QuoteSeen_dquote fl rw rs :
  feed (mkReader QuoteSeen fl rw rs) dquote = mkReader Quoted (dquote :: fl) rw rs.
Proof. reflexivity. Qed.

Lemma feed_FieldStart_dquote fl rw rs :
  feed (mkReader FieldStart fl rw rs) dquote = mkReader Quoted fl rw rs.
Proof. reflexivity. Qed.

Lemma feed_Quoted_other c fl rw rs :
  c <> dquote -> feed (mkReader Quoted fl rw rs) c = mkReader Quoted (c :: fl) rw rs.
Proof.
  intros Hc. unfold feed. cbn [mode].
  now destruct (N.eqb_spec c dquote).
Qed.

Lemma feed_escaped (f fl : list N) (rw : list (list N)) (rs : list (list (list N))) :
  fold_left feed (replaceQuotes f) (mkReader Quoted fl rw rs) =
  mkReader Quoted (rev f ++ fl) rw rs.
Proof.
  revert fl. induction f as [|c f IH]; intros fl; [reflexivity|].
  cbn [replaceQuotes rev]. rewrite <- app_assoc.
  destruct (N.eqb_spec c dquote) as [->|Hc]; cbn [fold_left].
  - now rewrite feed_Quoted_dquote, feed_QuoteSeen_dquote, IH.
  - now rewrite feed_Quoted_other, IH.
Qed.

Lemma feed_plain (f fl : list N) (rw : list (list N)) (rs : list (list (list N))) :
  ~ In dquote f ->
  fold_left feed f (mkReader Quoted fl rw rs) = mkReader Quoted (rev f ++ fl) rw rs.
Proof.
  revert fl. induction f as [|c f IH]; intros fl Hno; [reflexivity|].
  cbn [fold_left rev]. rewrite <- app_assoc.
  rewrite feed_Quoted_other by (intros ->; apply Hno; now left).
  apply IH. intros H. apply Hno. now right.
Qed.

(** A field between quotes, read from the start of a field. *)
Lemma feed_quoted (body f : list N) (rw : list (list N)) (rs : list (list (list N))) :
  (forall fl, fold_left feed body (mkReader Quoted fl rw rs)
              = mkReader Quoted (rev f ++ fl) rw rs) ->
  fold_left feed (quoted body) (mkReader FieldStart [] rw rs) =
  mkReader QuoteSeen (rev f) rw rs.
Proof.
  intros Hbody. unfold quoted. cbn [fold_left]. rewrite fold_left_app.
  rewrite feed_FieldStart_dquote, Hbody, app_nil_r. reflexivity.
Qed.

Lemma feed_comma (f : list N) (rw : list (list N)) (rs : list (list (list N))) :
  feed (mkReader QuoteSeen (rev f) rw rs) comma = mkReader FieldStart [] (f :: rw) rs.
Proof. unfold feed, endField. cbn. now rewrite rev_involutive. Qed.

Lemma emailField_escaped (c : Charity) : emailField c = replaceQuotes (emailText c).
Proof. unfold emailField, emailText. now destruct (email c). Qed.

Lemma feed_quoted_escaped (f : list N) (rw : list (list N)) (rs : list (list (list N))) :
  fold_left feed (quoted (replaceQuotes f)) (mkReader FieldStart [] rw rs) =
  mkReader QuoteSeen (rev f) rw rs.
Proof. apply feed_quoted. intros fl. apply feed_escaped. Qed.

Lemma feed_quoted_plain (f : list N) (rw : list (list N)) (rs : list (list (list N))) :
  ~ In dquote f ->
  fold_left feed (quoted f) (mkReader FieldStart [] rw rs) =
  mkReader QuoteSeen (rev f) rw rs.
Proof. intros Hno. apply feed_quoted. intros fl. now apply feed_plain. Qed.

Lemma feed_separator (c : N) (rest : list N) (r : Reader) :
  fold_left feed ([c] ++ rest) r = fold_left feed rest (feed r c).
Proof. reflexivity. Qed.

Lemma feed_quoted_comma (f rest : list N) (rw : list (list N)) (rs : list (list (list N))) :
  fold_left feed (quoted (replaceQuotes f) ++ [comma] ++ rest)
    (mkReader FieldStart [] rw rs) =
  fold_left feed rest (mkReader FieldStart [] (f :: rw) rs).
Proof.
  rewrite fold_left_app, feed_quoted_escaped.
  now rewrite feed_separator, feed_comma.
Qed.

Lemma feed_csvRow (c : Charity) (rs : list (list (list N))) :
  ~ In dquote (state c) ->
  fold_left feed (csvRow c) (mkReader FieldStart [] [] rs) =
  mkReader QuoteSeen (rev (state c))
    [emailText c; website c; address c; name c] rs.
Proof.
  intros Hno. unfold csvRow. cbn [join]. rewrite emailField_escaped.
  rewrite !feed_quoted_comma. now apply feed_quoted_plain.
Qed.

Lemma feed_newline (f : list N) (rw : list (list N)) (rs : list (list (list N))) :
  feed (mkReader QuoteSeen (rev f) rw rs) newline =
  mkReader FieldStart [] [] (rev (f :: rw) :: rs).
Proof. unfold feed, endRow. cbn. now rewrite rev_involutive. Qed.

Lemma recordFields_rev (c : Charity) :
  rev [state c; emailText c; website c; address c; name c] = recordFields c.
Proof. reflexivity. Qed.

Lemma join_cons (sep p : list N) (q : list N) (rest : list (list N)) :
  join sep (p :: q :: rest) = p ++ sep ++ join sep (q :: rest).
Proof. reflexivity. Qed.

(** The data rows, read from the start of a row. *)
Lemma finish_rows (c : Charity) (cs : list Charity) (rs : list (list (list N))) :
  Forall (fun c => ~ In dquote (state c)) (c :: cs) ->
  finish (fold_left feed (join [newline] (map csvRow (c :: cs)))
            (mkReader FieldStart [] [] rs)) =
  rev rs ++ map recordFields (c :: cs).
Proof.
  revert c rs. induction cs as [|c' cs IH]; intros c rs Hall;
    inversion Hall as [|? ? Hc Hcs]; subst.
  - cbn [map join]. rewrite feed_csvRow by assumption.
    unfold finish, endRow. cbn [mode row rows field].
    rewrite rev_involutive. cbn [rev]. reflexivity.
  - cbn [map]. rewrite join_cons, fold_left_app, feed_csvRow by assumption.
    rewrite feed_separator, feed_newline.
    change (map csvRow (c' :: cs)) with (csvRow c' :: map csvRow cs) in IH.
    rewrite (IH c' _ Hcs). rewrite recordFields_rev. cbn [rev map].
    now rewrite <- app_assoc.
Qed.

Section RoundTrip.

Variable localeCompare : list N -> list N -> Z.

Lemma insertByName_Forall (P : Charity -> Prop) (a : Charity) (l : list Charity) :
  P a -> Forall P l -> Forall P (insertByName localeCompare a l).
Proof.
  intros Ha. induction 1 as [|b l Hb Hl IH]; cbn [insertByName].
  - now repeat constructor.
  - destruct (localeCompare (name a) (name b) <=? 0)%Z; repeat constructor; assumption.
Qed.

Lemma sortByName_Forall (P : Charity -> Prop) (data : list Charity) :
  Forall P data -> Forall P (sortByName localeCompare data).
Proof.
  unfold sortByName. induction 1; cbn [foldr]; [constructor|].
  now apply insertByName_Forall.
Qed.

Lemma insertByName_Permutation (a : Charity) (l : list Charity) :
  Permutation (insertByName localeCompare a l) (a :: l).
Proof.
  induction l as [|b l IH]; cbn [insertByName]; [reflexivity|].
  destruct (localeCompare (name a) (name b) <=? 0)%Z; [reflexivity|].
  rewrite IH. apply perm_swap.
Qed.

Lemma sortByName_Permutation (data : list Charity) :
  Permutation (sortByName localeCompare data) data.
Proof.
  unfold sortByName. induction data as [|a data IH]; cbn [foldr]; [reflexivity|].
  now rewrite insertByName_Permutation, IH.
Qed.

Lemma sortByName_nonempty (data : list Charity) :
  data <> [] -> sortByName localeCompare data <> [].
Proof.
  intros Hne H. apply Hne, Permutation_nil.
  rewrite <- H. apply sortByName_Permutation.
Qed.

(** The whole text for rows already in order. *)
Lemma parse_content (c : Charity) (cs : list Charity) :
  Forall (fun c => ~ In dquote (state c)) (c :: cs) ->
  parseDelimited (join [newline] (join [comma] headers :: map csvRow (c :: cs))) =
  headers :: map recordFields (c :: cs).
Proof.
  intros Hall. unfold parseDelimited.
  change (map csvRow (c :: cs)) with (csvRow c :: map csvRow cs).
  rewrite join_cons, app_assoc, fold_left_app.
  change (fold_left feed (join [comma] headers ++ [newline])
            (mkReader FieldStart [] [] []))
    with (mkReader FieldStart [] [] [headers]).
  change (csvRow c :: map csvRow cs) with (map csvRow (c :: cs)).
  now rewrite finish_rows.
Qed.

(** The export read back.  For every non-empty record set in which no
    [state] holds a double quote, whatever quotes, commas and line breaks the
    names, addresses, websites and e-mail addresses hold, reading the
    exported text with the reader of delimited text gives the header row and
    then the five fields of every record, in the order of the sort (a record
    without e-mail has the empty string as its fourth field). *)
Theorem export_round_trip (data : list Charity) :
  data <> [] ->
  Forall (fun c => ~ In dquote (state c)) data ->
  parseDelimited (csvContent localeCompare data) =
  headers :: map recordFields (sortByName localeCompare data).
Proof.
  intros Hne Hall. apply sortByName_nonempty in Hne.
  apply (sortByName_Forall _ _) in Hall. unfold csvContent.
  destruct (sortByName localeCompare data) as [|c cs]; [contradiction|].
  now apply parse_content.
Qed.

End RoundTrip.

(** Why the reading back asks for a [state] without double quote.  The
    [state] field is written between quotes without the [replace] that the
    other four fields get.  A record whose [state] held a quote, a comma and
    a quote would be exported as a row of six fields; and a record whose
    [state] held a quote, a line break and the text of a row would be
    exported to the very text that two records give. *)
Lemma export_state_unescaped (localeCompare : list N -> list N -> Z) :
  let split := mkCharity (str "A") [] [] None
                 (str "CA" ++ [dquote; comma; dquote] ++ str "US") in
  let plain := mkCharity (str "A") [] [] None (str "X") in
  let merged := mkCharity (str "A") [] [] None
                  (str "X" ++ [dquote; newline] ++ removelast (csvRow plain)) in
  parseDelimited (csvContent localeCompare [split]) =
    [headers; [str "A"; []; []; []; str "CA"; str "US"]] /\
  parseDelimited (csvContent localeCompare [split]) <>
    headers :: map recordFields (sortByName localeCompare [split]) /\
  csvContent localeCompare [merged] = csvContent localeCompare [plain; plain] /\
  map recordFields (sortByName localeCompare [merged]) <>
    map recordFields (sortByName localeCompare [plain; plain]).
Proof.
  intros split plain merged.
  assert (Hpp : sortByName localeCompare [plain; plain] = [plain; plain]).
  { unfold sortByName. cbn [foldr insertByName].
    now destruct (localeCompare (name plain) (name plain) <=? 0)%Z. }
  split; [vm_compute; reflexivity|].
  split; [vm_compute; discriminate|].
  split.
  - unfold csvContent. rewrite Hpp. vm_compute. reflexivity.
  - rewrite Hpp. vm_compute. discriminate.
Qed.


(** *** The order of the rows *)

Section Sorting.

Variable localeCompare : list N -> list N -> Z.

(** [a] may stand before [b]: the comparison is not positive. *)
Hypothesis total :
  forall a b, (localeCompare a b <= 0)%Z \/ (localeCompare b a <= 0)%Z.
Hypothesis transitive :
  forall a b c,
    (localeCompare a b <= 0)%Z -> (localeCompare b c <= 0)%Z ->
    (localeCompare a c <= 0)%Z.

Let before (a b : Charity) : Prop := (localeCompare (name a) (name b) <= 0)%Z.

Lemma insertByName_HdRel (a x : Charity) (l : list Charity) :
  before x a -> HdRel before x l -> HdRel before x (insertByName localeCompare a l).
Proof.
  intros Hxa Hl. destruct l as [|b l]; cbn [insertByName]; [now constructor|].
  destruct (localeCompare (name a) (name b) <=? 0)%Z; [now constructor|].
  inversion Hl; subst. now constructor.
Qed.

Lemma insertByName_Sorted (a : Charity) (l : list Charity) :
  Sorted before l -> Sorted before (insertByName localeCompare a l).
Proof.
  induction 1 as [|b l Hl IH Hb]; cbn [insertByName]; [repeat constructor|].
  destruct (Z.leb_spec (localeCompare (name a) (name b)) 0) as [Hab|Hab].
  - constructor; [now constructor | now constructor].
  - constructor; [exact IH|]. apply insertByName_HdRel; [|exact Hb].
    destruct (total (name a) (name b)) as [H|H]; [lia | exact H].
Qed.

Lemma sortByName_Sorted (data : list Charity) :
  Sorted before (sortByName localeCompare data).
Proof.
  unfold sortByName. induction data as [|a data IH]; cbn [foldr]; [constructor|].
  now apply insertByName_Sorted.
Qed.

(** The records whose name compares equal to [n]. *)
Let sameName (n : list N) (c : Charity) : bool :=
  (localeCompare (name c) n <=? 0)%Z && (localeCompare n (name c) <=? 0)%Z.

Lemma insertByName_sameName (n : list N) (a : Charity) (l : list Charity) :
  List.filter (sameName n) (insertByName localeCompare a l) =
  List.filter (sameName n) (a :: l).
Proof.
  induction l as [|b l IH]; cbn [insertByName]; [reflexivity|].
  destruct (Z.leb_spec (localeCompare (name a) (name b)) 0) as [Hab|Hab];
    [reflexivity|].
  cbn [List.filter] in *. rewrite IH.
  destruct (sameName n a) eqn:Ha; [|reflexivity].
  destruct (sameName n b) eqn:Hb; [|reflexivity].
  exfalso. unfold sameName in Ha, Hb.
  apply andb_true_iff in Ha, Hb. rewrite !Z.leb_le in Ha, Hb.
  pose proof (transitive (name a) n (name b) (proj1 Ha) (proj2 Hb)). lia.
Qed.

Lemma sortByName_sameName (n : list N) (data : list Charity) :
  List.filter (sameName n) (sortByName localeCompare data) =
  List.filter (sameName n) data.
Proof.
  unfold sortByName. induction data as [|a data IH]; cbn [foldr]; [reflexivity|].
  rewrite insertByName_sameName. cbn [List.filter]. now rewrite IH.
Qed.

(** The order of the exported rows.  For a [localeCompare] that is total
    and transitive, the sort of the export returns the same records, each row
    standing before every later one in name order, and records whose names
    compare equal keep the order they have in the record store. *)
Theorem sortByName_stable_sort (data : list Charity) :
  Permutation (sortByName localeCompare data) data /\
  StronglySorted
    (fun a b => (localeCompare (name a) (name b) <= 0)%Z)
    (sortByName localeCompare data) /\
  forall n,
    List.filter
      (fun c => (localeCompare (name c) n <=? 0)%Z && (localeCompare n (name c) <=? 0)%Z)
      (sortByName localeCompare data) =
    List.filter
      (fun c => (localeCompare (name c) n <=? 0)%Z && (localeCompare n (name c) <=? 0)%Z)
      data.
Proof.
  split; [apply sortByName_Permutation|]. split.
  - apply Sorted_StronglySorted; [|apply sortByName_Sorted].
    intros a b c. apply transitive.
  - intros n. apply sortByName_sameName.
Qed.

End Sorting.

Lemma sortByName_stable_sort_witness :
  Permutation
    (sortByName (fun a b => (Z.of_nat (length a) - Z.of_nat (length b))%Z)
       realCharityData)
    realCharityData /\
  StronglySorted
    (fun a b => (Z.of_nat (length (name a)) - Z.of_nat (length (name b)) <= 0)%Z)
    (sortByName (fun a b => (Z.of_nat (length a) - Z.of_nat (length b))%Z)
       realCharityData).
Proof.
  destruct (sortByName_stable_sort
              (fun a b => (Z.of_nat (length a) - Z.of_nat (length b))%Z)
              ltac:(intros a b; lia)
              ltac:(intros a b c; lia)
              realCharityData) as (Hp & Hs & _).
  split; [exact Hp | exact Hs].
Defined.



(** *** Export, region derivation and the state *)

Lemma upper_not_dquote (c : N) : isUpper c = true -> c <> dquote.
Proof.
  unfold isUpper, dquote. rewrite andb_true_iff, !N.leb_le. lia.
Qed.

Lemma extractState_no_dquote (addr : list N) : ~ In dquote (extractState addr).
Proof.
  assert (Hcap : forall code,
             (exists a b, isUpper a = true /\ isUpper b = true /\ code = [a; b]) ->
             ~ In dquote code).
  { intros code (a & b & Ha & Hb & ->) [H | [H | []]].
    - now apply (upper_not_dquote a Ha).
    - now apply (upper_not_dquote b Hb). }
  destruct (stateZipMatch addr) as [code|] eqn:Hz.
  - rewrite (extractState_zip _ _ Hz). apply Hcap, (stateZipMatch_capitals _ _ Hz).
  - rewrite (extractState_names _ Hz).
    destruct (lookupName addr Scraper.states) as [c|] eqn:Hl.
    + apply Hcap, (lookupName_capitals _ _ Hl).
    + vm_compute. intuition discriminate.
Qed.

(** Export after region derivation.  When the [state] of every record is
    the region that [extractState] derives from its address, as for the
    records of the page source, reading the exported text back gives the
    header row and then the five fields of every record, in the order of the
    sort: the unescaped [state] field does no harm, because a derived region
    never holds a double quote. *)
Theorem derived_regions_round_trip (localeCompare : list N -> list N -> Z)
    (data : list Charity) :
  data <> [] ->
  Forall (fun c => state c = extractState (address c)) data ->
  parseDelimited (csvContent localeCompare data) =
  headers :: map recordFields (sortByName localeCompare data).
Proof.
  intros Hne Hall.
  assert (Hq : Forall (fun c => ~ In dquote (state c))
                 (sortByName localeCompare data)).
  { apply sortByName_Forall. eapply Forall_impl; [exact Hall|].
    intros c ->. apply extractState_no_dquote. }
  apply (sortByName_nonempty localeCompare) in Hne. unfold csvContent.
  destruct (sortByName localeCompare data) as [|c cs]; [contradiction|].
  now apply parse_content.
Qed.

Lemma derived_regions_round_trip_witness :
  parseDelimited (csvContent (fun _ _ => 0%Z) realCharityData) =
  headers :: map recordFields realCharityData.
Proof.
  assert (Hs : sortByName (fun _ _ => 0%Z) realCharityData = realCharityData)
    by (vm_compute; reflexivity).
  rewrite <- Hs at 2.
  apply (derived_regions_round_trip (fun _ _ => 0%Z) realCharityData).
  - discriminate.
  - assert (H : forallb (fun c => bool_decide (state c = extractState (address c)))
                  realCharityData = true) by (vm_compute; reflexivity).
    rewrite forallb_forall in H. apply Forall_forall. intros c Hc.
    apply list_elem_of_In in Hc. eapply bool_decide_eq_true_1, H, Hc.
Defined.

Lemma export_round_trip_witness :
  parseDelimited
    (csvContent (fun _ _ => 0%Z)
       [mkCharity (str "Ann " ++ [dquote] ++ str "Big" ++ [dquote] ++ str " Co, Ltd")
          (str "1 Main St, Reno, NV 89501") [] None (str "NV")]) =
  [headers;
   recordFields
     (mkCharity (str "Ann " ++ [dquote] ++ str "Big" ++ [dquote] ++ str " Co, Ltd")
        (str "1 Main St, Reno, NV 89501") [] None (str "NV"))].
Proof.
  apply (export_round_trip (fun _ _ => 0%Z)
           [mkCharity (str "Ann " ++ [dquote] ++ str "Big" ++ [dquote] ++ str " Co, Ltd")
              (str "1 Main St, Reno, NV 89501") [] None (str "NV")]).
  - discriminate.
  - repeat constructor. vm_compute. intuition discriminate.
Defined.

(** A [state] that the code produces holds no double quote. *)
Lemma producedState_no_dquote (st : list N) : producedState st -> ~ In dquote st.
Proof.
  assert (Hlist : forall l,
             forallb (fun s => negb (existsb (N.eqb dquote) s)) l = true ->
             In st l -> ~ In dquote st).
  { intros l Hall Hin Hq. rewrite forallb_forall in Hall. specialize (Hall _ Hin).
    apply negb_true_iff in Hall.
    assert (Hex : existsb (N.eqb dquote) st = true)
      by (apply existsb_exists; exists dquote; split; [exact Hq | apply N.eqb_refl]).
    congruence. }
  intros [[addr ->] | [Hin | Hin]].
  - apply extractState_no_dquote.
  - apply (Hlist statesList); [vm_compute; reflexivity | exact Hin].
  - apply (Hlist (map state realCharityData)); [vm_compute; reflexivity | exact Hin].
Qed.

(** C5. For every non-empty record store whose [state] fields are values
    that the code produces (a derived region, a code of [statesList] or of
    [realCharityData]), whatever quotes, commas and line breaks the names,
    addresses, websites and e-mail addresses hold: [exportToCSV] offers a
    text that the reader of delimited text reads back as the header row
    followed by the five fields of every record, the rows being the stored
    records in the order of the sort; the export leaves the records as they
    are, and a second export offers the same text. *)
Theorem export_reads_back (localeCompare : list N -> list N -> Z) (s : AppState) :
  charityData s <> [] ->
  Forall (fun c => producedState (state c)) (charityData s) ->
  exists text,
    snd (exportToCSV localeCompare s) = Some text /\
    parseDelimited text =
      headers :: map recordFields (sortByName localeCompare (charityData s)) /\
    Permutation (map recordFields (sortByName localeCompare (charityData s)))
      (map recordFields (charityData s)) /\
    charityData (fst (exportToCSV localeCompare s)) = charityData s /\
    snd (exportToCSV localeCompare (fst (exportToCSV localeCompare s))) = Some text.
Proof.
  intros Hne Hall. exists (csvContent localeCompare (charityData s)).
  assert (Hexp : forall s0 : AppState, charityData s0 = charityData s ->
            snd (exportToCSV localeCompare s0)
              = Some (csvContent localeCompare (charityData s)) /\
            charityData (fst (exportToCSV localeCompare s0)) = charityData s).
  { intros s0 Hs0. unfold exportToCSV. rewrite Hs0.
    destruct (charityData s) as [|c data] eqn:Hd; [contradiction|].
    cbn [fst snd charityData setIsExporting addLogMessage setLog].
    now rewrite Hs0. }
  destruct (Hexp s eq_refl) as [Hfirst Hkept].
  split; [exact Hfirst|]. split; [|split; [|split]].
  - assert (Hq : Forall (fun c => ~ In dquote (state c))
                   (sortByName localeCompare (charityData s))).
    { apply sortByName_Forall. eapply Forall_impl; [exact Hall|].
      intros c. apply producedState_no_dquote. }
    apply (sortByName_nonempty localeCompare) in Hne. unfold csvContent.
    destruct (sortByName localeCompare (charityData s)) as [|c cs];
      [contradiction|].
    now apply parse_content.
  - apply Permutation_map, sortByName_Permutation.
  - exact Hkept.
  - apply (Hexp _ Hkept).
Qed.

Lemma export_reads_back_witness :
  exists text,
    snd (exportToCSV (fun _ _ => 0%Z)
           (setCharityData
              [mkCharity (str "Ann " ++ [dquote] ++ str "Big" ++ [dquote] ++ str " Co, Ltd")
                 (str "1 Main St, Reno, NV 89501") [] None (str "NV")]
              (initialState defaultScraperConfig))) = Some text /\
    parseDelimited text =
      [headers;
       [str "Ann " ++ [dquote] ++ str "Big" ++ [dquote] ++ str " Co, Ltd";
        str "1 Main St, Reno, NV 89501"; []; []; str "NV"]].
Proof.
  destruct (export_reads_back (fun _ _ => 0%Z)
              (setCharityData
                 [mkCharity
                    (str "Ann " ++ [dquote] ++ str "Big" ++ [dquote] ++ str " Co, Ltd")
                    (str "1 Main St, Reno, NV 89501") [] None (str "NV")]
                 (initialState defaultScraperConfig)))
    as (text & Ht & Hp & _).
  - discriminate.
  - constructor; [|constructor]. left. exists (str "1 Main St, Reno, NV 89501").
    vm_compute. reflexivity.
  - exists text. split; [exact Ht | exact Hp].
Defined.

End ExportFacts.

(** ** The command-line scraper *)

Module CompanyScraperFacts.
Import App CompanyScraper.

Local Open Scope N_scope.

Section Main.

Variable validURL : list N -> bool.

Lemma visitAll_None (details : list (option CompanyData)) :
  In None details -> visitAll validURL details = None.
Proof.
  induction details as [|d details IH]; [intros []|].
  intros [-> | Hin]; [reflexivity|].
  cbn [visitAll]. destruct (visit validURL d); [|reflexivity].
  now rewrite (IH Hin).
Qed.

(** One company page that could not be read makes [main] fail: the loop
    sets [companyEmail] on the [null] that [scrapeCompanyDetails] returned,
    the exception leaves [main], and nothing is saved, whatever the other
    pages gave.  Without any link nothing is saved either. *)
Theorem main_saves_nothing_after_failed_page (details : list (option CompanyData)) :
  In None details \/ details = [] -> main validURL details = None.
Proof.
  intros [Hin | ->]; [|reflexivity]. unfold main.
  destruct details; [reflexivity|]. now rewrite (visitAll_None _ Hin).
Qed.

Lemma visit_row (d : option CompanyData) (row : CompanyData) :
  visit validURL d = Some row ->
  exists data, d = Some data /\
    companyName row = companyName data /\ companyURL row = companyURL data /\
    shown (companyEmail row) =
      (if bool_decide (companyURL data = NotFound) then NotFound
       else shown (companyEmail data)).
Proof.
  destruct d as [data|]; [|discriminate]. cbn [visit].
  case_bool_decide as Hu; cbn [negb].
  - intros [= <-]. exists data. repeat (split; [reflexivity|]).
    now rewrite bool_decide_eq_true_2.
  - destruct (validURL (companyURL data)); [|discriminate].
    intros [= <-]. exists data. repeat (split; [reflexivity|]).
    now rewrite bool_decide_eq_false_2.
Qed.

Lemma visitAll_rows (details : list (option CompanyData)) (results : list CompanyData) :
  visitAll validURL details = Some results ->
  Forall2 (fun d row =>
             exists data, d = Some data /\
               companyName row = companyName data /\
               companyURL row = companyURL data /\
               shown (companyEmail row) =
                 (if bool_decide (companyURL data = NotFound) then NotFound
                  else shown (companyEmail data)))
    details results.
Proof.
  revert results. induction details as [|d details IH]; intros results; cbn [visitAll].
  - intros [= <-]. constructor.
  - destruct (visit validURL d) as [row|] eqn:Hv; [|discriminate].
    destruct (visitAll validURL details) as [rest|]; [|discriminate].
    intros [= <-]. constructor; [now apply visit_row | now apply IH].
Qed.

(** What [main] saves.  When it saves a file, every detail page was read,
    and the file is the header line followed by one line per company, in
    order: its name, its URL and, as third and last value, the text
    [Not Found] for a company without website and the text [undefined] for a
    company with one (whose [companyEmail] the page scraper never sets): the
    header names four columns, and no line carries an e-mail address. *)
Theorem main_saved_lines (details : list (option CompanyData)) (text : list N) :
  Forall (fun d => forall data, d = Some data -> companyEmail data = None) details ->
  main validURL details = Some text ->
  exists companies,
    details = map Some companies /\ companies <> [] /\
    text = csvHeaders
           ++ join [newline]
                (map (fun data =>
                        companyName data ++ [comma] ++ companyURL data ++ [comma]
                        ++ (if bool_decide (companyURL data = NotFound)
                            then NotFound else str "undefined"))
                   companies).
Proof.
  intros Hfresh. unfold main. destruct details as [|d0 details0] eqn:Hd; [discriminate|].
  assert (Hne : details <> []) by (rewrite Hd; discriminate).
  rewrite <- Hd in *. clear Hd.
  destruct (visitAll validURL details) as [results|] eqn:Hv; [|discriminate].
  intros [= <-]. apply visitAll_rows in Hv.
  assert (H : exists companies,
             details = map Some companies /\
             map csvLine results =
             map (fun data =>
                    companyName data ++ [comma] ++ companyURL data ++ [comma]
                    ++ (if bool_decide (companyURL data = NotFound)
                        then NotFound else str "undefined")) companies).
  { clear - Hv Hfresh. induction Hv as [|d row details results Hrow Hv IH].
    - now exists [].
    - inversion Hfresh as [|? ? Hd Hrest]; subst.
      destruct (IH Hrest) as (companies & -> & Hmap).
      destruct Hrow as (data & -> & Hn & Hu & He).
      exists (data :: companies). split; [reflexivity|].
      cbn [map]. rewrite Hmap. f_equal. unfold csvLine.
      rewrite Hn, Hu, He, (Hd data eq_refl). reflexivity. }
  destruct H as (companies & Hdet & Hmap).
  exists companies. split; [exact Hdet|]. split.
  - intros ->. apply Hne. exact Hdet.
  - unfold saveToCSV. now rewrite Hmap.
Qed.

End Main.

Lemma main_saved_lines_witness :
  main (fun _ => true)
    [Some (mkCompanyData (str "Acme") (str "https://acme.example/") None);
     Some (mkCompanyData (str "Unknown") (str "Not Found") None)]
  = Some (str "Company Name,Company URL,Phone Number,Company Email" ++ [newline]
          ++ str "Acme,https://acme.example/,undefined" ++ [newline]
          ++ str "Unknown,Not Found,Not Found").
Proof.
  destruct (main_saved_lines (fun _ => true)
              [Some (mkCompanyData (str "Acme") (str "https://acme.example/") None);
               Some (mkCompanyData (str "Unknown") (str "Not Found") None)]
              (default [] (main (fun _ => true)
                 [Some (mkCompanyData (str "Acme") (str "https://acme.example/") None);
                  Some (mkCompanyData (str "Unknown") (str "Not Found") None)])))
    as (companies & Hd & _ & Ht).
  - repeat constructor; intros data [= <-]; reflexivity.
  - vm_compute. reflexivity.
  - vm_compute. reflexivity.
Defined.

Lemma main_saves_nothing_after_failed_page_witness :
  main (fun _ => true)
    [Some (mkCompanyData (str "Acme") (str "https://acme.example/") None); None]
  = None.
Proof.
  apply (main_saves_nothing_after_failed_page (fun _ => true)).
  left. right. left. reflexivity.
Defined.

End CompanyScraperFacts.
